(** * deploy-ntt: the NTT deployment wrapper, embedded and verified

    The repository holds two variants of one command-line script:
      - the full script (prerequisite check, Solana preparation step), and
      - [src/deploy-ntt.ts], the same script without those two parts.
    Both parse the same flags with the same [parseArgs] and [printUsage],
    then run a fixed sequence of external commands through [execSync].

    The embedding is shallow.  A script run is a function from the outside
    world (what each external command answers, which files exist) to the
    chronological list of observable events plus the way the run ended. *)

From Stdlib Require Import String Ascii List ZArith Bool Arith Lia.
Import ListNotations.
Open Scope string_scope.

(* ------------------------------------------------------------------ *)
(** ** Characters and strings as the script uses them *)

(** The double-quote character, and the line feed. *)
Definition dq : string := String (ascii_of_nat 34) EmptyString.
Definition nl_char : ascii := ascii_of_nat 10.
Definition nl : string := String nl_char EmptyString.

Definition is_upper (c : ascii) : bool :=
  (65 <=? nat_of_ascii c)%nat && (nat_of_ascii c <=? 90)%nat.

(** [c.toLowerCase()] on one ASCII letter. *)
Definition toLowerCase_char (c : ascii) : ascii :=
  if is_upper c then ascii_of_nat (nat_of_ascii c + 32) else c.

(** [param.replace(/[A-Z]/g, c => `-${c.toLowerCase()}`)] *)
Fixpoint dash_case (param : string) : string :=
  match param with
  | EmptyString => EmptyString
  | String c rest =>
      if is_upper c
      then String "-" (String (toLowerCase_char c) (dash_case rest))
      else String c (dash_case rest)
  end.

(** A template-literal hole [${v}] where [v] may be [undefined]. *)
Definition interp (v : option string) : string :=
  match v with
  | Some s => s
  | None => "undefined"
  end.

(** JavaScript truthiness of a possibly-undefined string: [undefined] and
    the empty string are falsy. *)
Definition truthy (v : option string) : bool :=
  match v with
  | Some EmptyString => false
  | Some _ => true
  | None => false
  end.

(* ------------------------------------------------------------------ *)
(** ** Data model *)

Inductive Mode : Type := burning | locking.

Definition Mode_to_string (m : Mode) : string :=
  match m with
  | burning => "burning"
  | locking => "locking"
  end.

(** The test [mode !== 'burning' && mode !== 'locking'] of [parseArgs],
    read as a partial conversion. *)
Definition Mode_of_string (s : string) : option Mode :=
  if s =? "burning" then Some burning
  else if s =? "locking" then Some locking
  else None.

(** [Partial<DeploymentConfig>]: every field may be [undefined].  The cast
    [config as DeploymentConfig] is erased at run time, so one record
    serves for both types. *)
Record DeploymentConfig : Type := mkConfig {
  projectName : option string;
  baseToken : option string;
  solanaToken : option string;
  solanaPayer : option string;
  mode : option Mode
}.

Definition empty_config : DeploymentConfig :=
  mkConfig None None None None None.

Definition set_projectName v (c : DeploymentConfig) :=
  mkConfig v (baseToken c) (solanaToken c) (solanaPayer c) (mode c).
Definition set_baseToken v (c : DeploymentConfig) :=
  mkConfig (projectName c) v (solanaToken c) (solanaPayer c) (mode c).
Definition set_solanaToken v (c : DeploymentConfig) :=
  mkConfig (projectName c) (baseToken c) v (solanaPayer c) (mode c).
Definition set_solanaPayer v (c : DeploymentConfig) :=
  mkConfig (projectName c) (baseToken c) (solanaToken c) v (mode c).
Definition set_mode v (c : DeploymentConfig) :=
  mkConfig (projectName c) (baseToken c) (solanaToken c) (solanaPayer c) v.

(** [config[param]] for the four string-valued keys. *)
Definition config_get (c : DeploymentConfig) (param : string) : option string :=
  if param =? "projectName" then projectName c
  else if param =? "baseToken" then baseToken c
  else if param =? "solanaToken" then solanaToken c
  else if param =? "solanaPayer" then solanaPayer c
  else None.

Module DEFAULT_CONFIG.
Definition network : string := "Testnet".
Definition mode : Mode := burning.
Module rpcEndpoints.
Definition Base : string := "https://sepolia.base.org".
Definition Solana : string := "https://api.devnet.solana.com".
End rpcEndpoints.
End DEFAULT_CONFIG.

(* ------------------------------------------------------------------ *)
(** ** Effects: events, the outside world, and the script monad *)

(** What a [throw] carries: the error [execSync] raises for a command (its
    [status] property is the child's exit status, or [null] when the child
    has none: killed by a signal, not spawned, or stopped because its
    output outgrew the buffer), a plain [new Error(message)], or the
    system error of a failed [process.chdir] or [writeFileSync].  Only the
    first kind has a [status]. *)
Inductive js_error : Type :=
| ChildProcessError (cmd : string) (status : option Z)
| Error (message : string)
| ChdirError (dir : string)
| WriteFileError (path : string).

(** [error.status], [None] standing for [null] and [undefined] alike. *)
Definition error_status (e : js_error) : option Z :=
  match e with
  | ChildProcessError _ st => st
  | _ => None
  end.

Inductive console_arg : Type :=
| Str (s : string)
| Obj (e : js_error).

Inductive event : Type :=
| ConsoleLog (args : list console_arg)
| ConsoleError (args : list console_arg)
| ExecSync (cmd : string)
| WriteFileSync (path data : string)
| Chdir (dir : string).

(** The world answers a command line with an exit status ([None] when the
    child has none) and the captured standard output; it decides whether a
    change of directory or a file write fails; all of this may depend on
    everything that happened before.  [fs_exists] is what [existsSync]
    sees. *)
Record World : Type := mkWorld {
  shell : list event -> string -> option Z * string;
  chdir_fails : list event -> string -> bool;
  write_fails : list event -> string -> bool;
  fs_exists : string -> bool
}.

(** How a piece of script ends: normally with a value, by a [throw], or by
    [process.exit(code)]. *)
Inductive completion (A : Type) : Type :=
| Normal (a : A)
| Thrown (e : js_error)
| Exited (code : Z).
Arguments Normal {A} a.
Arguments Thrown {A} e.
Arguments Exited {A} code.

(** A script fragment maps the world and the events so far to the events
    so far extended, and a completion. *)
Definition Js (A : Type) : Type :=
  World -> list event -> list event * completion A.

Definition ret {A} (a : A) : Js A := fun _ tr => (tr, Normal a).

Definition bind {A B} (m : Js A) (k : A -> Js B) : Js B :=
  fun w tr =>
    match m w tr with
    | (tr', Normal a) => k a w tr'
    | (tr', Thrown e) => (tr', Thrown e)
    | (tr', Exited c) => (tr', Exited c)
    end.

Notation "x <- m ;; k" := (bind m (fun x => k))
  (at level 61, m at next level, right associativity).
Notation "m ;; k" := (bind m (fun _ => k))
  (at level 61, right associativity).

(** Printing is recorded and cannot fail. *)
Definition emit (e : event) : Js unit :=
  fun _ tr => ((tr ++ [e])%list, Normal tt).

Definition console_log (args : list console_arg) : Js unit :=
  emit (ConsoleLog args).
Definition console_error (args : list console_arg) : Js unit :=
  emit (ConsoleError args).

Definition process_exit {A} (code : Z) : Js A := fun _ tr => (tr, Exited code).
Definition throw {A} (e : js_error) : Js A := fun _ tr => (tr, Thrown e).

(** [try { m } catch (error) { h error }] *)
Definition try_catch {A} (m : Js A) (h : js_error -> Js A) : Js A :=
  fun w tr =>
    match m w tr with
    | (tr', Thrown e) => h e w tr'
    | r => r
    end.

(** [writeFileSync(path, data)] and [process.chdir(dir)]: recorded when
    they succeed; when the system refuses (no such directory, no
    permission) they throw and nothing is recorded. *)
Definition writeFileSync (path data : string) : Js unit :=
  fun w tr =>
    if write_fails w tr path
    then (tr, Thrown (WriteFileError path))
    else ((tr ++ [WriteFileSync path data])%list, Normal tt).

Definition process_chdir (dir : string) : Js unit :=
  fun w tr =>
    if chdir_fails w tr dir
    then (tr, Thrown (ChdirError dir))
    else ((tr ++ [Chdir dir])%list, Normal tt).

(** The child ended with exit status 0. *)
Definition exited_zero (status : option Z) : bool :=
  match status with
  | Some st => (st =? 0)%Z
  | None => false
  end.

(** [execSync(cmd)]: runs the command, returns what it printed, and throws
    unless the child ended with exit status 0.  The error carries the
    child's exit status, or none when there is none (the child was killed
    by a signal, could not be started, or printed more than the output
    buffer holds). *)
Definition execSync (cmd : string) : Js string :=
  fun w tr =>
    let '(status, out) := shell w tr cmd in
    if exited_zero status
    then ((tr ++ [ExecSync cmd])%list, Normal out)
    else ((tr ++ [ExecSync cmd])%list, Thrown (ChildProcessError cmd status)).

Definition existsSync (path : option string) : Js bool :=
  fun w tr =>
    (tr, Normal match path with
                | Some p => fs_exists w p
                | None => false
                end).

(** The status the operating system sees when the process ends. *)
Definition exit_status {A} (c : completion A) : Z :=
  match c with
  | Normal _ => 0
  | Thrown _ => 1
  | Exited code => code
  end.

(* ------------------------------------------------------------------ *)
(** ** printUsage and parseArgs (identical in both variants) *)

Definition usage_text : string :=
"
Usage: deploy-ntt [options]

Required:
    --project-name      Name of the NTT project
    --base-token       Base chain token address
    --solana-token     Solana chain token address
    --solana-payer     Path to Solana payer keypair file

Optional:
    --mode             Token transfer mode (burning/locking) [default: burning]
    -h, --help         Show this help message

Example:
    deploy-ntt --project-name my-token-bridge \
              --base-token 0x1234... \
              --solana-token TokenkegQfeZyiNwAJbNbGKPFXCWuBvf9Ss623VQ5DA \
              --solana-payer ~/.config/solana/id.json \
              --mode locking
  ".

Definition printUsage {A} : Js A :=
  console_log [Str usage_text] ;;
  process_exit 1.

Definition invalid_mode {A} : Js A :=
  console_error [Str "Error: mode must be either 'burning' or 'locking'"] ;;
  process_exit 1.

(** The [for]/[switch] loop of [parseArgs].  The loop index [i] is kept as
    the suffix of [args] still to be read: [args[i]] is its head and
    [args[++i]] the head of what follows, [undefined] when nothing does. *)
Fixpoint scanArgs (args : list string) (config : DeploymentConfig)
  : Js DeploymentConfig :=
  match args with
  | [] => ret config
  | a :: rest =>
      if a =? "--project-name" then
        match rest with
        | v :: rest' => scanArgs rest' (set_projectName (Some v) config)
        | [] => ret (set_projectName None config)
        end
      else if a =? "--base-token" then
        match rest with
        | v :: rest' => scanArgs rest' (set_baseToken (Some v) config)
        | [] => ret (set_baseToken None config)
        end
      else if a =? "--solana-token" then
        match rest with
        | v :: rest' => scanArgs rest' (set_solanaToken (Some v) config)
        | [] => ret (set_solanaToken None config)
        end
      else if a =? "--solana-payer" then
        match rest with
        | v :: rest' => scanArgs rest' (set_solanaPayer (Some v) config)
        | [] => ret (set_solanaPayer None config)
        end
      else if a =? "--mode" then
        match rest with
        | v :: rest' =>
            match Mode_of_string v with
            | Some m => scanArgs rest' (set_mode (Some m) config)
            | None => invalid_mode
            end
        | [] => invalid_mode
        end
      else if (a =? "-h") || (a =? "--help") then
        printUsage
      else
        console_error [Str ("Unknown option: " ++ a)] ;;
        printUsage
  end.

Definition requiredParams : list string :=
  ["projectName"; "baseToken"; "solanaToken"; "solanaPayer"].

(** [for (const param of requiredParams) if (!config[param]) ...] *)
Fixpoint checkRequired (params : list string) (config : DeploymentConfig)
  : Js unit :=
  match params with
  | [] => ret tt
  | param :: more =>
      if truthy (config_get config param)
      then checkRequired more config
      else
        console_error
          [Str ("Error: Missing required parameter --" ++ dash_case param)] ;;
        printUsage
  end.

Definition parseArgs (args : list string) : Js DeploymentConfig :=
  config <- scanArgs args empty_config ;;
  checkRequired requiredParams config ;;
  found <- existsSync (solanaPayer config) ;;
  if negb found then
    console_error
      [Str ("Error: Solana payer file not found: " ++ interp (solanaPayer config))] ;;
    process_exit 1
  else
    ret config.

(* ------------------------------------------------------------------ *)
(** ** JSON.stringify on the values the script serializes *)

#[warnings="-register-all"]
Inductive json : Type :=
| JString (s : string)
| JObject (members : list (string * json)).

Definition hex_digit (n : nat) : ascii :=
  if (n <? 10)%nat then ascii_of_nat (48 + n) else ascii_of_nat (87 + n).

(** One code unit inside a quoted JSON string. *)
Definition quote_char (c : ascii) : string :=
  let n := nat_of_ascii c in
  if (n =? 8)%nat then "\b"
  else if (n =? 9)%nat then "\t"
  else if (n =? 10)%nat then "\n"
  else if (n =? 12)%nat then "\f"
  else if (n =? 13)%nat then "\r"
  else if (n =? 34)%nat then "\" ++ dq
  else if (n =? 92)%nat then "\\"
  else if (n <? 32)%nat
       then "\u00" ++ String (hex_digit (n / 16)) (String (hex_digit (n mod 16)) "")
  else String c "".

Fixpoint quote_body (s : string) : string :=
  match s with
  | EmptyString => EmptyString
  | String c rest => quote_char c ++ quote_body rest
  end.

Definition QuoteJSONString (s : string) : string := dq ++ quote_body s ++ dq.

Fixpoint join (sep : string) (parts : list string) : string :=
  match parts with
  | [] => ""
  | [p] => p
  | p :: more => p ++ sep ++ join sep more
  end.

(** Serialization of a value at the current indentation; [gap] is the
    indentation unit ([""] means compact output). *)
Fixpoint serialize (gap indent : string) (v : json) : string :=
  match v with
  | JString s => QuoteJSONString s
  | JObject members =>
      let stepback := indent in
      let indent := indent ++ gap in
      let partial :=
        map (fun kv =>
               QuoteJSONString (fst kv) ++ ":"
               ++ (if gap =? "" then "" else " ")
               ++ serialize gap indent (snd kv))
            members in
      match partial with
      | [] => "{}"
      | _ =>
          if gap =? ""
          then "{" ++ join "," partial ++ "}"
          else "{" ++ nl ++ indent
               ++ join ("," ++ nl ++ indent) partial
               ++ nl ++ stepback ++ "}"
      end
  end.

Fixpoint spaces (n : nat) : string :=
  match n with
  | O => ""
  | S k => String " " (spaces k)
  end.

(** [JSON.stringify(value, null, space)] with a numeric [space]. *)
Definition JSON_stringify (value : json) (space : nat) : string :=
  serialize (spaces (Nat.min 10 space)) "" value.

(** The [overrides] object literal of [deployNTT]. *)
Definition overrides : json :=
  JObject
    [("chains",
      JObject
        [("Base", JObject [("rpc", JString DEFAULT_CONFIG.rpcEndpoints.Base)]);
         ("Solana", JObject [("rpc", JString DEFAULT_CONFIG.rpcEndpoints.Solana)])])].

(* ------------------------------------------------------------------ *)
(** ** String helpers of the keypair locator *)

(** White space and line terminators that [String.prototype.trim] strips,
    on the ASCII range.  A string of the embedding is a sequence of 8-bit
    characters; on ASCII text (see [is_ascii]) these are the code units of
    the JavaScript string, and [trim], [split_nl] and [slice_0_minus] are
    the built-ins.  Outside ASCII, [trim] strips further characters (the
    no-break space among them) and [slice] counts code units, not bytes:
    the statements about trimmed or sliced text are limited to ASCII
    text. *)
Definition is_space (c : ascii) : bool :=
  let n := nat_of_ascii c in
  ((9 <=? n)%nat && (n <=? 13)%nat) || (n =? 32)%nat.

Fixpoint trimStart (s : string) : string :=
  match s with
  | EmptyString => EmptyString
  | String c rest => if is_space c then trimStart rest else s
  end.

Fixpoint trimEnd (s : string) : string :=
  match s with
  | EmptyString => EmptyString
  | String c rest =>
      match trimEnd rest with
      | EmptyString => if is_space c then EmptyString else String c EmptyString
      | rest' => String c rest'
      end
  end.

Definition trim (s : string) : string := trimEnd (trimStart s).

(** [s.split('\n')]: one more piece than there are line feeds. *)
Fixpoint split_nl (s : string) : list string :=
  match s with
  | EmptyString => [EmptyString]
  | String c rest =>
      if Ascii.eqb c nl_char then EmptyString :: split_nl rest
      else match split_nl rest with
           | piece :: more => String c piece :: more
           | [] => [String c EmptyString]
           end
  end.

(** [s.slice(0, -n)] *)
Definition slice_0_minus (n : nat) (s : string) : string :=
  substring 0 (String.length s - n) s.

(* ------------------------------------------------------------------ *)
(** ** The locator's command line, as the shell and grep receive it *)

(** Escape sequences of a JavaScript string literal (single-character
    escapes only): a backslash before a character that is not an escape
    letter stands for that character alone. *)
Definition cook_escape (c : ascii) : ascii :=
  if Ascii.eqb c "n" then ascii_of_nat 10
  else if Ascii.eqb c "t" then ascii_of_nat 9
  else if Ascii.eqb c "r" then ascii_of_nat 13
  else if Ascii.eqb c "b" then ascii_of_nat 8
  else if Ascii.eqb c "f" then ascii_of_nat 12
  else if Ascii.eqb c "v" then ascii_of_nat 11
  else if Ascii.eqb c "0" then ascii_of_nat 0
  else c.

Fixpoint cook (literal : string) : string :=
  match literal with
  | EmptyString => EmptyString
  | String c rest =>
      if Ascii.eqb c "\" then
        match rest with
        | String d rest' => String (cook_escape d) (cook rest')
        | EmptyString => EmptyString
        end
      else String c (cook rest)
  end.

(** The characters between the quotes of the literal passed to [execSync]
    in [findNttKeypairFile], as written in the source file. *)
Definition locator_literal : string :=
  "ls -1 | grep -i " ++ dq ++ "^ntt.*\.json$" ++ dq.

(** The string value of that literal: what [execSync] hands to the shell. *)
Definition locator_command : string := cook locator_literal.

(** The word a POSIX shell makes of a double-quoted section: inside double
    quotes a backslash quotes only dollar, backquote, double quote and
    backslash; a dollar that ends the section is literal. *)
Fixpoint dquoted_word (s : string) : string :=
  match s with
  | EmptyString => EmptyString
  | String c rest =>
      if Ascii.eqb c (ascii_of_nat 34) then EmptyString
      else if Ascii.eqb c "\" then
        match rest with
        | String d rest' =>
            if Ascii.eqb d "$" || Ascii.eqb d "`"
               || Ascii.eqb d (ascii_of_nat 34) || Ascii.eqb d "\"
            then String d (dquoted_word rest')
            else String c (String d (dquoted_word rest'))
        | EmptyString => String c EmptyString
        end
      else String c (dquoted_word rest)
  end.

(** The text after the first double quote of a command line. *)
Fixpoint after_dq (s : string) : string :=
  match s with
  | EmptyString => EmptyString
  | String c rest => if Ascii.eqb c (ascii_of_nat 34) then rest else after_dq rest
  end.

(** The pattern argument grep receives from a command line of the shape
    [... grep -i "pattern"]. *)
Definition grep_pattern (command : string) : string :=
  dquoted_word (after_dq command).

(** Basic regular expressions, the fragment the script uses: literal
    characters, [.], a starred atom, and the two anchors. *)
Inductive atom : Type :=
| Lit (c : ascii)
| AnyChar.

Record bre : Type := mkBre {
  bol : bool;
  items : list (atom * bool);
  eol : bool
}.

Fixpoint parse_items (s : string) : list (atom * bool) * bool :=
  match s with
  | EmptyString => ([], false)
  | String c rest =>
      if Ascii.eqb c "$" && (rest =? "") then ([], true)
      else if Ascii.eqb c "\" then
        match rest with
        | String d (String "*" rest') =>
            let (its, e) := parse_items rest' in ((Lit d, true) :: its, e)
        | String d rest' =>
            let (its, e) := parse_items rest' in ((Lit d, false) :: its, e)
        | EmptyString => ([(Lit c, false)], false)
        end
      else
        let a := if Ascii.eqb c "." then AnyChar else Lit c in
        match rest with
        | String "*" rest' =>
            let (its, e) := parse_items rest' in ((a, true) :: its, e)
        | _ =>
            let (its, e) := parse_items rest in ((a, false) :: its, e)
        end
  end.

Definition parse_bre (pattern : string) : bre :=
  match pattern with
  | String "^" rest => let (its, e) := parse_items rest in mkBre true its e
  | _ => let (its, e) := parse_items pattern in mkBre false its e
  end.

(** One atom against one character, ignoring case (grep -i). *)
Definition atom_matches (a : atom) (c : ascii) : bool :=
  match a with
  | AnyChar => true
  | Lit l => Ascii.eqb (toLowerCase_char l) (toLowerCase_char c)
  end.

(** Does the item list match a prefix of [text] (all of it when the
    pattern ends in the end anchor)? *)
Fixpoint match_here (end_anchor : bool) (its : list (atom * bool))
  (text : string) {struct its} : bool :=
  match its with
  | [] => if end_anchor then text =? "" else true
  | (a, false) :: more =>
      match text with
      | String c t => atom_matches a c && match_here end_anchor more t
      | EmptyString => false
      end
  | (a, true) :: more =>
      (fix star (text : string) : bool :=
         match_here end_anchor more text
         || match text with
            | String c t => atom_matches a c && star t
            | EmptyString => false
            end) text
  end.

Fixpoint match_anywhere (end_anchor : bool) (its : list (atom * bool))
  (text : string) : bool :=
  match_here end_anchor its text
  || match text with
     | String _ t => match_anywhere end_anchor its t
     | EmptyString => false
     end.

(** [grep -i pattern] selects a line.  Letters are compared up to ASCII
    case and [.] stands for any one character: this is grep on ASCII
    lines, in every locale.  (On other lines the locale decides what a
    character is and which letters fold together.) *)
Definition grep_i (pattern line : string) : bool :=
  let r := parse_bre pattern in
  if bol r then match_here (eol r) (items r) line
  else match_anywhere (eol r) (items r) line.

(** Whether the locator's filter keeps a directory-entry name. *)
Definition locator_accepts (name : string) : bool :=
  grep_i (grep_pattern locator_command) name.

Fixpoint unlines (lines : list string) : string :=
  match lines with
  | [] => ""
  | l :: more => l ++ nl ++ unlines more
  end.

(** What [ls -1 | grep -i pattern] answers in a directory whose entries
    are [entries]: the selected names one per line, and grep's status, 1
    when nothing is selected. *)
Definition ls_grep_i (pattern : string) (entries : list string)
  : option Z * string :=
  match filter (grep_i pattern) entries with
  | [] => (Some 1%Z, "")
  | hits => (Some 0%Z, unlines hits)
  end.

(* ------------------------------------------------------------------ *)
(** ** Command lines built by the orchestrator *)

Definition new_command (projectName : string) : string :=
  "ntt new " ++ projectName.

Definition init_command : string := "ntt init " ++ DEFAULT_CONFIG.network.

Definition add_chain_Solana_command (solanaToken : string) (mode : Mode)
  (solanaPayer : string) : string :=
  "ntt add-chain Solana --token " ++ solanaToken ++ " --mode "
  ++ Mode_to_string mode ++ " --latest --payer " ++ solanaPayer.

Definition add_chain_Base_command (baseToken : string) (mode : Mode) : string :=
  "ntt add-chain Base --token " ++ baseToken ++ " --mode "
  ++ Mode_to_string mode ++ " --latest --skip-verify".

Definition push_command (solanaPayer : string) : string :=
  "ntt push --yes --payer " ++ solanaPayer.

Definition keygen_command : string :=
  "solana-keygen grind --starts-with ntt:1 --ignore-case".

Definition token_authority_command (programKeypairFile : string) : string :=
  "ntt solana token-authority " ++ programKeypairFile.

Definition authorize_command (solanaToken tokenAuthorityPDA : string) : string :=
  "spl-token authorize " ++ solanaToken ++ " mint " ++ tokenAuthorityPDA.

(** [mode = DEFAULT_CONFIG.mode] in the destructuring of [deployNTT]. *)
Definition mode_or_default (m : option Mode) : Mode :=
  match m with
  | Some m => m
  | None => DEFAULT_CONFIG.mode
  end.

(* ------------------------------------------------------------------ *)
(** ** The full script *)

Module Full.

Definition probes : list string :=
  ["which solana"; "which spl-token"; "which anchor"; "which forge";
   "which ntt"].

Definition remediation : list event :=
  [ConsoleError [Str "Missing required tools. Please install:"];
   ConsoleError [Str "- Solana CLI tools (solana, spl-token)"];
   ConsoleError
     [Str "- Anchor (https://www.anchor-lang.com/docs/installation)"];
   ConsoleError
     [Str "- Foundry (forge) (https://book.getfoundry.sh/getting-started/installation)"];
   ConsoleError
     [Str "- NTT CLI (https://wormhole.com/docs/build/contract-integrations/native-token-transfers/deployment-process/install-cli)"]].

(** The [which] probes sit in one [try] block: the first failing probe
    jumps to the handler, which prints the remediation lines and exits. *)
Definition checkPrerequisites : Js unit :=
  try_catch
    (execSync "which solana" ;;
     execSync "which spl-token" ;;
     execSync "which anchor" ;;
     execSync "which forge" ;;
     execSync "which ntt" ;;
     ret tt)
    (fun _ =>
       console_error [Str "Missing required tools. Please install:"] ;;
       console_error [Str "- Solana CLI tools (solana, spl-token)"] ;;
       console_error
         [Str "- Anchor (https://www.anchor-lang.com/docs/installation)"] ;;
       console_error
         [Str "- Foundry (forge) (https://book.getfoundry.sh/getting-started/installation)"] ;;
       console_error
         [Str "- NTT CLI (https://wormhole.com/docs/build/contract-integrations/native-token-transfers/deployment-process/install-cli)"] ;;
       process_exit 1).

Definition not_found_message : string :=
  "No NTT keypair file found in current directory".
Definition multiple_message : string :=
  "Multiple NTT keypair files found. Please ensure only one exists.".

(** An [async] function: a [throw] in its body is the rejection of the
    promise it returns, and [await] rethrows it, so the body is sequenced
    like any other fragment. *)
Definition findNttKeypairFile : Js string :=
  try_catch
    (output <- execSync locator_command ;;
     let files := split_nl (trim output) in
     if (List.length files =? 0)%nat
        || ((List.length files =? 1)%nat
            && match hd_error files with
               | Some f => f =? ""
               | None => false
               end)
     then throw (Error not_found_message)
     else if (1 <? List.length files)%nat
     then throw (Error multiple_message)
     else ret (interp (hd_error files)))
    (fun error =>
       match error_status error with
       | Some 1%Z => throw (Error not_found_message)
       | _ => throw error
       end).

(** [mode === 'burning'] on the field as stored, [undefined] included. *)
Definition is_burning (m : option Mode) : bool :=
  match m with
  | Some burning => true
  | _ => false
  end.

Definition prepareSolanaDeployment (config : DeploymentConfig) : Js unit :=
  let solanaToken := interp (solanaToken config) in
  let mode := mode config in
  if is_burning mode then
    console_log [Str "Generating program keypair for burning mode..."] ;;
    execSync keygen_command ;;
    programKeypairFile <- findNttKeypairFile ;;
    console_log [Str "Program keypair file:"; Str programKeypairFile] ;;
    out <- execSync (token_authority_command programKeypairFile) ;;
    let tokenAuthorityPDA := slice_0_minus 4 (trim out) in
    console_log [Str "Setting mint authority..."] ;;
    execSync (authorize_command solanaToken tokenAuthorityPDA) ;;
    ret tt
  else ret tt.

Definition deployNTT (config : DeploymentConfig) : Js unit :=
  let projectName := interp (projectName config) in
  let baseToken := interp (baseToken config) in
  let solanaToken := interp (solanaToken config) in
  let solanaPayer := interp (solanaPayer config) in
  let mode := mode_or_default (mode config) in
  checkPrerequisites ;;
  console_log [Str ("Creating new NTT project: " ++ projectName)] ;;
  execSync (new_command projectName) ;;
  process_chdir projectName ;;
  console_log [Str ("Initializing project for " ++ DEFAULT_CONFIG.network)] ;;
  execSync init_command ;;
  writeFileSync "overrides.json" (JSON_stringify overrides 2) ;;
  prepareSolanaDeployment config ;;
  console_log [Str "Adding Solana chain..."] ;;
  execSync (add_chain_Solana_command solanaToken mode solanaPayer) ;;
  console_log [Str "Adding Base chain..."] ;;
  execSync (add_chain_Base_command baseToken mode) ;;
  console_log [Str "Pushing configuration..."] ;;
  execSync (push_command solanaPayer) ;;
  console_log [Str "Deployment complete! Configuration saved in deployment.json"] ;;
  deploymentJson <- execSync "cat deployment.json" ;;
  console_log [Str deploymentJson].

(** Main execution.  [deployNTT(config)] only builds a promise, so no
    exception leaves it; a rejection goes to [.catch(console.error)],
    after which the process ends on its own. *)
Definition main (args : list string) : Js unit :=
  try_catch
    (config <- parseArgs args ;;
     try_catch (deployNTT config) (fun e => console_error [Obj e]))
    (fun error =>
       console_error [Str "Deployment failed:"; Obj error] ;;
       process_exit 1).

End Full.

(* ------------------------------------------------------------------ *)
(** ** The variant in src/deploy-ntt.ts *)

Module Plain.

Definition deployNTT (config : DeploymentConfig) : Js unit :=
  let projectName := interp (projectName config) in
  let baseToken := interp (baseToken config) in
  let solanaToken := interp (solanaToken config) in
  let solanaPayer := interp (solanaPayer config) in
  let mode := mode_or_default (mode config) in
  console_log [Str ("Creating new NTT project: " ++ projectName)] ;;
  execSync (new_command projectName) ;;
  process_chdir projectName ;;
  console_log [Str ("Initializing project for " ++ DEFAULT_CONFIG.network)] ;;
  execSync init_command ;;
  writeFileSync "overrides.json" (JSON_stringify overrides 2) ;;
  console_log [Str "Adding Solana chain..."] ;;
  execSync (add_chain_Solana_command solanaToken mode solanaPayer) ;;
  console_log [Str "Adding Base chain..."] ;;
  execSync (add_chain_Base_command baseToken mode) ;;
  console_log [Str "Pushing configuration..."] ;;
  execSync (push_command solanaPayer) ;;
  console_log [Str "Deployment complete! Configuration saved in deployment.json"] ;;
  deploymentJson <- execSync "cat deployment.json" ;;
  console_log [Str deploymentJson].

Definition main (args : list string) : Js unit :=
  try_catch
    (config <- parseArgs args ;;
     try_catch (deployNTT config) (fun e => console_error [Obj e]))
    (fun error =>
       console_error [Str "Deployment failed:"; Obj error] ;;
       process_exit 1).

End Plain.

(* ------------------------------------------------------------------ *)
(** ** Observing a run *)

(** A whole process run from an empty history: the events it produced and
    the exit status of the process. *)
Definition run (program : list string -> Js unit) (w : World)
  (args : list string) : list event * Z :=
  let (tr, c) := program args w [] in (tr, exit_status c).

(** The command lines handed to [execSync], in order. *)
Fixpoint commands (tr : list event) : list string :=
  match tr with
  | [] => []
  | ExecSync cmd :: rest => cmd :: commands rest
  | _ :: rest => commands rest
  end.

(** The files written, in order, each with the directories the process
    had changed into before the write (innermost last). *)
Fixpoint writes_from (dirs : list string) (tr : list event)
  : list (list string * string * string) :=
  match tr with
  | [] => []
  | Chdir d :: rest => writes_from (dirs ++ [d])%list rest
  | WriteFileSync path data :: rest => (dirs, path, data) :: writes_from dirs rest
  | _ :: rest => writes_from dirs rest
  end.

Definition writes (tr : list event) : list (list string * string * string) :=
  writes_from [] tr.

(** A world in which every external command exits with status 0 and every
    change of directory and file write succeeds. *)
Definition all_succeed (w : World) : Prop :=
  (forall tr cmd, fst (shell w tr cmd) = Some 0%Z)
  /\ (forall tr dir, chdir_fails w tr dir = false)
  /\ (forall tr path, write_fails w tr path = false).

(** The four commands of the burning-mode preparation step, recognised by
    how their text begins. *)
Definition is_preparation_command (cmd : string) : bool :=
  prefix "solana-keygen " cmd
  || prefix "ls " cmd
  || prefix "ntt solana token-authority " cmd
  || prefix "spl-token authorize " cmd.

(** Console output, as opposed to commands and file-system effects. *)
Definition is_console (e : event) : bool :=
  match e with
  | ConsoleLog _ | ConsoleError _ => true
  | _ => false
  end.

(** The first required parameter that [checkRequired] finds falsy. *)
Definition first_missing (config : DeploymentConfig) : option string :=
  find (fun param => negb (truthy (config_get config param))) requiredParams.

(** What the script prints for a missing required parameter. *)
Definition missing_report (param : string) : list event :=
  [ConsoleError [Str ("Error: Missing required parameter --" ++ dash_case param)];
   ConsoleLog [Str usage_text]].

(** The flags of the required parameters, as the report spells them. *)
Definition required_flags : list string :=
  map (fun param => "--" ++ dash_case param) requiredParams.

(** Both variants end with the same main block; only [deployNTT] differs. *)
Definition main_of (deploy : DeploymentConfig -> Js unit) (args : list string)
  : Js unit :=
  try_catch
    (config <- parseArgs args ;;
     try_catch (deploy config) (fun e => console_error [Obj e]))
    (fun error =>
       console_error [Str "Deployment failed:"; Obj error] ;;
       process_exit 1).

(** What one pass of the scanner can do: return a configuration without
    printing (a field whose flag does not occur keeps its value), or print
    and exit with status 1. *)
Definition scan_post (args : list string) (cfg : DeploymentConfig)
  (tr : list event) (r : list event * completion DeploymentConfig) : Prop :=
  match snd r with
  | Normal cfg' =>
      fst r = tr
      /\ (~ In "--project-name" args -> projectName cfg' = projectName cfg)
      /\ (~ In "--base-token" args -> baseToken cfg' = baseToken cfg)
      /\ (~ In "--solana-token" args -> solanaToken cfg' = solanaToken cfg)
      /\ (~ In "--solana-payer" args -> solanaPayer cfg' = solanaPayer cfg)
      /\ (~ In "--mode" args -> mode cfg' = mode cfg)
  | Thrown _ => False
  | Exited code =>
      code = 1%Z
      /\ exists msgs, fst r = (tr ++ msgs)%list /\ forallb is_console msgs = true
  end.

(** What [parseArgs] can do: hand over a configuration without a trace of
    its own, or print and exit with status 1; it never throws and never
    runs a command. *)
Definition parse_post (w : World) (args : list string) (tr : list event)
  (r : list event * completion DeploymentConfig) : Prop :=
  match snd r with
  | Normal cfg =>
      fst r = tr
      /\ scanArgs args empty_config w tr = (tr, Normal cfg)
      /\ first_missing cfg = None
  | Thrown _ => False
  | Exited code =>
      code = 1%Z
      /\ exists msgs, fst r = (tr ++ msgs)%list /\ forallb is_console msgs = true
  end.

(* ------------------------------------------------------------------ *)
(** ** Vocabulary of the parser statements *)

Definition is_help (a : string) : bool := (a =? "-h") || (a =? "--help").

Definition is_value_flag (a : string) : bool :=
  (a =? "--project-name") || (a =? "--base-token")
  || (a =? "--solana-token") || (a =? "--solana-payer").

Definition is_valid_mode (v : string) : bool :=
  match Mode_of_string v with
  | Some _ => true
  | None => false
  end.

(** The scanner reads all of [pre] as flag-value pairs and stands at a
    flag position after it. *)
Fixpoint reads_through (pre : list string) : bool :=
  match pre with
  | [] => true
  | flag :: v :: rest =>
      (is_value_flag flag || ((flag =? "--mode") && is_valid_mode v))
      && reads_through rest
  | [_] => false
  end.

(** A world where every command succeeds silently and every file exists. *)
Definition quiet_world : World :=
  mkWorld (fun _ _ => (Some 0%Z, "")) (fun _ _ => false) (fun _ _ => false)
          (fun _ => true).

(** A complete argument list whose project name is the text [-h]. *)
Definition help_as_value_args : list string :=
  ["--project-name"; "-h"; "--base-token"; "0xAAA"; "--solana-token"; "So1";
   "--solana-payer"; "./payer.json"].

(** [config[param] = v] for the four string-valued keys. *)
Definition config_set (c : DeploymentConfig) (param : string)
  (v : option string) : DeploymentConfig :=
  if param =? "projectName" then set_projectName v c
  else if param =? "baseToken" then set_baseToken v c
  else if param =? "solanaToken" then set_solanaToken v c
  else if param =? "solanaPayer" then set_solanaPayer v c
  else c.

(** The parameters checked before [param] in the order of [params]. *)
Fixpoint params_before (param : string) (params : list string) : list string :=
  match params with
  | [] => []
  | p :: more => if p =? param then [] else p :: params_before param more
  end.

(* ------------------------------------------------------------------ *)
(** ** Vocabulary of the deployment statements *)

(** The exit status of the [k]-th probe, asked after the probes before it. *)
Definition probe_status (w : World) (k : nat) : option Z :=
  fst (shell w (map ExecSync (firstn k Full.probes)) (nth k Full.probes "")).

(** In world [w], every event the fragment appends to the history
    satisfies [P]. *)
Definition emits (w : World) (P : event -> bool) {A} (m : Js A) : Prop :=
  forall tr, exists evs,
    fst (m w tr) = (tr ++ evs)%list /\ forallb P evs = true.

Definition any_event (e : event) : bool := true.

(** No event that touches the file system. *)
Definition leaves_files (e : event) : bool :=
  match e with
  | WriteFileSync _ _ | Chdir _ => false
  | _ => true
  end.

(** No command of the preparation step. *)
Definition no_preparation (e : event) : bool :=
  match e with
  | ExecSync cmd => negb (is_preparation_command cmd)
  | _ => true
  end.

Definition quoted (s : string) : string := dq ++ s ++ dq.

(** The text of overrides.json, line by line. *)
Definition overrides_text : string :=
  join nl
    ["{";
     "  " ++ quoted "chains" ++ ": {";
     "    " ++ quoted "Base" ++ ": {";
     "      " ++ quoted "rpc" ++ ": " ++ quoted "https://sepolia.base.org";
     "    },";
     "    " ++ quoted "Solana" ++ ": {";
     "      " ++ quoted "rpc" ++ ": " ++ quoted "https://api.devnet.solana.com";
     "    }";
     "  }";
     "}"].

(** The one write of a run that gets as far as writing. *)
Definition overrides_write (cfg : DeploymentConfig)
  : list string * string * string :=
  ([interp (projectName cfg)], "overrides.json", overrides_text).

(** The arguments of the end-to-end scenario, and what they parse to. *)
Definition demo_args : list string :=
  ["--project-name"; "demo"; "--base-token"; "0xAAA";
   "--solana-token"; "TokenkegQfeZyiNwAJbNbGKPFXCWuBvf9Ss623VQ5DA";
   "--solana-payer"; "./payer.json"].

Definition demo_config : DeploymentConfig :=
  mkConfig (Some "demo") (Some "0xAAA")
    (Some "TokenkegQfeZyiNwAJbNbGKPFXCWuBvf9Ss623VQ5DA")
    (Some "./payer.json") None.

(** A world where [ntt new] exits with status 1 and all else succeeds. *)
Definition new_fails_world : World :=
  mkWorld (fun _ cmd =>
             if prefix "ntt new " cmd then (Some 1%Z, "") else (Some 0%Z, ""))
          (fun _ _ => false) (fun _ _ => false) (fun _ => true).

(** The word after [--mode] in an [add-chain] command, for a stored mode. *)
Definition mode_word (m : option Mode) : string :=
  match m with
  | Some locking => "locking"
  | _ => "burning"
  end.

(** The text of the six deployment commands, spelled out; [mode_text] is
    the word after [--mode]. *)
Definition chain_commands_text
  (name base_token solana_token payer mode_text : string) : list string :=
  ["ntt new " ++ name;
   "ntt init Testnet";
   "ntt add-chain Solana --token " ++ solana_token ++ " --mode " ++ mode_text
   ++ " --latest --payer " ++ payer;
   "ntt add-chain Base --token " ++ base_token ++ " --mode " ++ mode_text
   ++ " --latest --skip-verify";
   "ntt push --yes --payer " ++ payer;
   "cat deployment.json"].

(** An [add-chain] command is one of the two that say [--mode burning]. *)
Definition add_chain_burning (cfg : DeploymentConfig) (e : event) : bool :=
  match e with
  | ExecSync cmd =>
      if prefix "ntt add-chain " cmd
      then (cmd =? "ntt add-chain Solana --token " ++ interp (solanaToken cfg)
                   ++ " --mode burning --latest --payer "
                   ++ interp (solanaPayer cfg))
           || (cmd =? "ntt add-chain Base --token " ++ interp (baseToken cfg)
                      ++ " --mode burning --latest --skip-verify")
      else true
  | _ => true
  end.

(** A world where anchor is not installed and all else succeeds. *)
Definition anchor_missing_world : World :=
  mkWorld (fun _ cmd =>
             if cmd =? "which anchor" then (Some 1%Z, "") else (Some 0%Z, ""))
          (fun _ _ => false) (fun _ _ => false) (fun _ => true).

(* ------------------------------------------------------------------ *)
(** ** Vocabulary of the locator statements *)

(** [s.toLowerCase()] on ASCII. *)
Fixpoint toLowerCase (s : string) : string :=
  match s with
  | EmptyString => EmptyString
  | String c rest => String (toLowerCase_char c) (toLowerCase rest)
  end.

(** [s.endsWith(suffix)] *)
Fixpoint endsWith (suffix s : string) : bool :=
  (s =? suffix)
  || match s with
     | String _ rest => endsWith suffix rest
     | EmptyString => false
     end.

(** The shape the specification gives for accepted names. *)
Definition claimed_shape (name : string) : bool :=
  prefix "ntt" (toLowerCase name) && endsWith ".json" (toLowerCase name).

(** The tail of the locator's pattern after the starred dot. *)
Definition pattern_tail : list (atom * bool) :=
  [(AnyChar, false); (Lit "j", false); (Lit "s", false); (Lit "o", false);
   (Lit "n", false)].

(** A directory-entry name that fits on one line of [ls -1]. *)
Fixpoint no_newline (s : string) : bool :=
  match s with
  | EmptyString => true
  | String c rest => negb (Ascii.eqb c nl_char) && no_newline rest
  end.

(** The last character is not white space. *)
Definition ends_visibly (s : string) : Prop :=
  exists body c, s = body ++ String c "" /\ is_space c = false.

(** In world [w] the locator's command lists a directory whose entries
    are [entries]. *)
Definition lists_directory (w : World) (entries : list string) : Prop :=
  forall tr,
    shell w tr locator_command = ls_grep_i (grep_pattern locator_command) entries.

(** No [spl-token authorize] command. *)
Definition no_authorize (e : event) : bool :=
  match e with
  | ExecSync cmd => negb (prefix "spl-token authorize " cmd)
  | _ => true
  end.

(** A world whose working directory holds the given entries; every other
    command succeeds and prints nothing. *)
Definition directory_world (entries : list string) : World :=
  mkWorld (fun _ cmd =>
             if cmd =? locator_command
             then ls_grep_i (grep_pattern locator_command) entries
             else (Some 0%Z, ""))
          (fun _ _ => false) (fun _ _ => false) (fun _ => true).

(** A directory with two keypair files. *)
Definition two_keypairs : list string := ["nttA.json"; "README.md"; "NTTb.JSON"].

(* ------------------------------------------------------------------ *)
(** ** Vocabulary of the further properties *)

(** What the script prints for an invalid or missing [--mode] value. *)
Definition invalid_mode_report : list event :=
  [ConsoleError [Str "Error: mode must be either 'burning' or 'locking'"]].

(** What the script prints for a token it does not recognise. *)
Definition unknown_option_report (a : string) : list event :=
  [ConsoleError [Str ("Unknown option: " ++ a)]; ConsoleLog [Str usage_text]].

(** What the script prints when the payer file does not exist. *)
Definition payer_report (path : string) : list event :=
  [ConsoleError [Str ("Error: Solana payer file not found: " ++ path)]].

(** A token the [switch] of [parseArgs] has no case for. *)
Definition is_unknown_option (a : string) : bool :=
  negb (is_value_flag a || (a =? "--mode") || is_help a).

(** The value after [--mode] is absent or is neither mode name. *)
Definition lacks_valid_mode (rest : list string) : bool :=
  match rest with
  | [] => true
  | v :: _ => negb (is_valid_mode v)
  end.

(** A world where every command succeeds and no file exists. *)
Definition empty_disk_world : World :=
  mkWorld (fun _ _ => (Some 0%Z, "")) (fun _ _ => false) (fun _ _ => false)
          (fun _ => false).

(** In world [w] the fragment never ends by [process.exit]. *)
Definition never_exits (w : World) {A} (m : Js A) : Prop :=
  forall tr tr' code, m w tr <> (tr', Exited code).

(** Every character is in the ASCII range.  On such text the characters
    of the embedding are the code units of the JavaScript string, and
    [trim] and [slice_0_minus] are the built-ins. *)
Fixpoint is_ascii (s : string) : bool :=
  match s with
  | EmptyString => true
  | String c rest => (nat_of_ascii c <? 128)%nat && is_ascii rest
  end.

(** The deployment commands of a run that skips the preparation step, in
    the mode the configuration stores (burning when it stores none). *)
Definition chain_sequence (cfg : DeploymentConfig) : list string :=
  chain_commands_text (interp (projectName cfg)) (interp (baseToken cfg))
    (interp (solanaToken cfg)) (interp (solanaPayer cfg)) (mode_word (mode cfg)).

(** The text of the deployment commands of a burning-mode run that found
    the keypair file [name] and derived the authority [address]. *)
Definition burning_sequence (cfg : DeploymentConfig) (name address : string)
  : list string :=
  ["ntt new " ++ interp (projectName cfg);
   "ntt init Testnet";
   "solana-keygen grind --starts-with ntt:1 --ignore-case";
   "ls -1 | grep -i " ++ dq ++ "^ntt.*.json$" ++ dq;
   "ntt solana token-authority " ++ name;
   "spl-token authorize " ++ interp (solanaToken cfg) ++ " mint " ++ address;
   "ntt add-chain Solana --token " ++ interp (solanaToken cfg)
   ++ " --mode burning --latest --payer " ++ interp (solanaPayer cfg);
   "ntt add-chain Base --token " ++ interp (baseToken cfg)
   ++ " --mode burning --latest --skip-verify";
   "ntt push --yes --payer " ++ interp (solanaPayer cfg);
   "cat deployment.json"].

(** No [which] probe. *)
Definition no_probe (e : event) : bool :=
  match e with
  | ExecSync cmd => negb (prefix "which " cmd)
  | _ => true
  end.

(** The scenario's configuration with an explicit mode. *)
Definition demo_config_in (m : Mode) : DeploymentConfig :=
  set_mode (Some m) demo_config.

(** A world with one keypair file, where the token-authority command
    prints an address followed by four more characters and a line feed. *)
Definition keypair_world : World :=
  mkWorld (fun _ cmd =>
             if cmd =? locator_command
             then ls_grep_i (grep_pattern locator_command)
                    ["nttKey.json"; "README.md"]
             else if prefix "ntt solana token-authority " cmd
             then (Some 0%Z, "Authority (1)" ++ nl)
             else (Some 0%Z, ""))
          (fun _ _ => false) (fun _ _ => false) (fun _ => true).

(** How a run of [Plain.deployNTT] that issued [k] commands ended:
    completed after all six; stopped by the error of the [k]-th command,
    which did not exit with status 0; or stopped because the change of
    directory (after the first command) or the write of overrides.json
    (after the second) failed. *)
Definition plain_outcome (cfg : DeploymentConfig) (k : nat)
  (c : completion unit) : Prop :=
  match c with
  | Normal _ => k = 6
  | Thrown (ChildProcessError cmd status) =>
      cmd = nth (k - 1) (chain_sequence cfg) "" /\ status <> Some 0%Z
  | Thrown (ChdirError dir) => k = 1 /\ dir = interp (projectName cfg)
  | Thrown (WriteFileError path) => k = 2 /\ path = "overrides.json"
  | Thrown (Error _) => False
  | Exited _ => False
  end.


(** [status === 1] on a child's exit status. *)
Definition exited_one (status : option Z) : bool :=
  match status with
  | Some st => (st =? 1)%Z
  | None => false
  end.

(** How [findNttKeypairFile] ends, read off what the listing command
    answered: its exit status and its output. *)
Definition locator_result (status : option Z) (out : string)
  : completion string :=
  if exited_one status then Thrown (Error Full.not_found_message)
  else if negb (exited_zero status)
  then Thrown (ChildProcessError locator_command status)
  else if trim out =? "" then Thrown (Error Full.not_found_message)
  else if no_newline (trim out) then Normal (trim out)
  else Thrown (Error Full.multiple_message).

(** Only white space. *)
Fixpoint all_space (s : string) : bool :=
  match s with
  | EmptyString => true
  | String c rest => is_space c && all_space rest
  end.

(** The first character is not white space. *)
Definition starts_visibly (s : string) : Prop :=
  exists c rest, s = String c rest /\ is_space c = false.

(** Some character is an upper-case ASCII letter. *)
Fixpoint has_upper (s : string) : bool :=
  match s with
  | EmptyString => false
  | String c rest => is_upper c || has_upper rest
  end.

(** The number of upper-case ASCII letters. *)
Fixpoint count_upper (s : string) : nat :=
  match s with
  | EmptyString => 0
  | String c rest => (if is_upper c then 1 else 0) + count_upper rest
  end.


(* ================================================================== *)
(** * Properties *)

(* ------------------------------------------------------------------ *)
(** ** Traces *)

Lemma commands_app tr1 tr2 :
  commands (tr1 ++ tr2)%list = (commands tr1 ++ commands tr2)%list.
Proof.
  induction tr1 as [|e tr1 IH]; [reflexivity|].
  destruct e; cbn; rewrite IH; reflexivity.
Qed.

Lemma commands_console msgs :
  forallb is_console msgs = true -> commands msgs = [].
Proof.
  induction msgs as [|e msgs IH]; [reflexivity|].
  destruct e; cbn; try discriminate; exact IH.
Qed.

(* ------------------------------------------------------------------ *)
(** ** The argument parser *)

Lemma list_pair_ind (A : Type) (P : list A -> Prop) :
  P [] -> (forall a, P [a]) -> (forall a b l, P l -> P (a :: b :: l)) ->
  forall l, P l.
Proof.
  intros H0 H1 H2 l.
  enough (P l /\ forall a, P (a :: l)) by tauto.
  induction l as [|b l [IH1 IH2]]; split; auto.
Qed.

Example dash_case_required :
  map dash_case requiredParams
  = ["project-name"; "base-token"; "solana-token"; "solana-payer"].
Proof. reflexivity. Qed.

Ltac exits_with_messages :=
  cbn; split;
  [reflexivity
  | eexists; split; [rewrite <- ?app_assoc; reflexivity | reflexivity]].

Ltac split_on_flag a :=
  repeat match goal with
  | |- context [String.eqb a ?s] => destruct (String.eqb_spec a s) as [->|?]
  end; cbn [orb].

Ltac field_kept :=
  match goal with
  | H : ?P -> ?f ?c' = _ |- ?f ?c' = _ =>
      rewrite H; [reflexivity | cbn [In] in *; intuition congruence]
  end.

Lemma scanArgs_post args : forall cfg w tr,
  scan_post args cfg tr (scanArgs args cfg w tr).
Proof.
  induction args as [| a | a b l IH] using list_pair_ind; intros cfg w tr.
  - cbn. tauto.
  - unfold scan_post. cbn [scanArgs].
    split_on_flag a; try exits_with_messages;
      cbn; repeat split; intros; try reflexivity;
      exfalso; cbn [In] in *; intuition congruence.
  - unfold scan_post in *. cbn [scanArgs].
    split_on_flag a; try exits_with_messages.
    5: { destruct (Mode_of_string b) as [m|]; [|exits_with_messages].
         specialize (IH (set_mode (Some m) cfg) w tr).
         destruct (scanArgs l (set_mode (Some m) cfg) w tr) as [tr' [c'|e|code]];
           cbn [fst snd] in *; [|exact IH|exact IH].
         destruct IH as (? & ? & ? & ? & ? & ?).
         repeat split; try assumption; intros; try field_kept.
         exfalso; cbn [In] in *; intuition congruence. }
    all: match goal with
         | |- context [scanArgs ?l ?c ?w ?tr] =>
             specialize (IH c w tr);
             destruct (scanArgs l c w tr) as [tr' [c'|e|code]];
             cbn [fst snd] in *; [|exact IH|exact IH]
         end.
    all: destruct IH as (? & ? & ? & ? & ? & ?).
    all: repeat split; try assumption; intros; try field_kept.
    all: exfalso; cbn [In] in *; intuition congruence.
Qed.

Lemma checkRequired_find params cfg w tr :
  checkRequired params cfg w tr =
  match find (fun param => negb (truthy (config_get cfg param))) params with
  | None => (tr, Normal tt)
  | Some param => ((tr ++ missing_report param)%list, Exited 1%Z)
  end.
Proof.
  induction params as [|p ps IH]; [reflexivity|].
  cbn [checkRequired find].
  destruct (truthy (config_get cfg p)); cbn [negb]; [exact IH|].
  unfold bind, console_error, emit, printUsage, bind, console_log, emit, process_exit, missing_report.
  rewrite <- app_assoc. reflexivity.
Qed.

Lemma parseArgs_unfold args w tr :
  parseArgs args w tr =
  match scanArgs args empty_config w tr with
  | (tr1, Normal cfg) =>
      match first_missing cfg with
      | Some param => ((tr1 ++ missing_report param)%list, Exited 1%Z)
      | None =>
          if match solanaPayer cfg with
             | Some p => fs_exists w p
             | None => false
             end
          then (tr1, Normal cfg)
          else ((tr1 ++ [ConsoleError
                          [Str ("Error: Solana payer file not found: "
                                ++ interp (solanaPayer cfg))]])%list,
                Exited 1%Z)
      end
  | (tr1, Thrown e) => (tr1, Thrown e)
  | (tr1, Exited c) => (tr1, Exited c)
  end.
Proof.
  unfold parseArgs at 1. unfold bind at 1.
  destruct (scanArgs args empty_config w tr) as [tr1 [cfg|e|c]]; try reflexivity.
  unfold bind at 1. rewrite checkRequired_find. fold (first_missing cfg).
  destruct (first_missing cfg); [reflexivity|].
  unfold bind, existsSync.
  destruct (solanaPayer cfg) as [p|]; [destruct (fs_exists w p)|]; reflexivity.
Qed.

Lemma parseArgs_post w args tr : parse_post w args tr (parseArgs args w tr).
Proof.
  rewrite parseArgs_unfold.
  pose proof (scanArgs_post args empty_config w tr) as S.
  unfold scan_post, parse_post in *.
  destruct (scanArgs args empty_config w tr) as [tr1 [cfg|e|c]];
    cbn [fst snd] in *; try exact S.
  destruct S as [-> _].
  destruct (first_missing cfg) as [p|] eqn:M.
  - cbn. split; [reflexivity|]. eexists; split; reflexivity.
  - destruct (match solanaPayer cfg with Some p => fs_exists w p | None => false end);
      cbn [fst snd].
    + auto.
    + split; [reflexivity|]. eexists; split; reflexivity.
Qed.

Section AnyVariant.
Variable deploy : DeploymentConfig -> Js unit.

Lemma run_parse_exit w args tr code :
  parseArgs args w [] = (tr, Exited code) ->
  run (main_of deploy) w args = (tr, 1%Z) /\ commands tr = [].
Proof.
  intros E. pose proof (parseArgs_post w args []) as P.
  unfold parse_post in P. rewrite E in P. cbn [fst snd] in P.
  destruct P as (-> & msgs & -> & Hm).
  unfold run, main_of, try_catch, bind. rewrite E. cbn.
  split; [reflexivity|]. apply commands_console, Hm.
Qed.

Lemma run_parse_ok w args cfg :
  parseArgs args w [] = ([], Normal cfg) ->
  run (main_of deploy) w args =
  match deploy cfg w [] with
  | (tr, Normal _) => (tr, 0%Z)
  | (tr, Thrown e) => ((tr ++ [ConsoleError [Obj e]])%list, 0%Z)
  | (tr, Exited code) => (tr, code)
  end.
Proof.
  intros E. unfold run, main_of, try_catch, bind. rewrite E.
  destruct (deploy cfg w []) as [tr [u|e|code]]; reflexivity.
Qed.
End AnyVariant.

Lemma Full_main_of : Full.main = main_of Full.deployNTT.
Proof. reflexivity. Qed.

Lemma Plain_main_of : Plain.main = main_of Plain.deployNTT.
Proof. reflexivity. Qed.

Lemma scanArgs_help pre : forall h rest cfg w tr,
  reads_through pre = true -> is_help h = true ->
  scanArgs (pre ++ h :: rest) cfg w tr
  = ((tr ++ [ConsoleLog [Str usage_text]])%list, Exited 1%Z).
Proof.
  induction pre as [| a | a v pre IH] using list_pair_ind;
    intros h rest cfg w tr R H.
  - cbn [app scanArgs]. unfold is_help in H.
    destruct (String.eqb_spec h "-h") as [->|]; [reflexivity|].
    destruct (String.eqb_spec h "--help") as [->|]; [reflexivity|].
    discriminate.
  - discriminate.
  - cbn [reads_through] in R. apply andb_true_iff in R. destruct R as [F R].
    cbn [app scanArgs]. unfold is_value_flag, is_valid_mode in F.
    split_on_flag a; try (apply IH; assumption); try discriminate.
    destruct (Mode_of_string v); [apply IH; assumption | discriminate].
Qed.

Lemma first_missing_of_falsy cfg param :
  In param requiredParams ->
  truthy (config_get cfg param) = false ->
  exists p, first_missing cfg = Some p.
Proof.
  intros I F. destruct (first_missing cfg) as [p|] eqn:E; [eauto|].
  unfold first_missing in E.
  pose proof (find_none _ _ E param I) as N. cbn beta in N.
  rewrite F in N. discriminate.
Qed.

Lemma parse_reports_missing w args cfg p :
  scanArgs args empty_config w [] = ([], Normal cfg) ->
  first_missing cfg = Some p ->
  run Full.main w args = (missing_report p, 1%Z)
  /\ run Plain.main w args = (missing_report p, 1%Z).
Proof.
  intros S M.
  assert (E : parseArgs args w [] = (missing_report p, Exited 1%Z)).
  { rewrite parseArgs_unfold, S, M. reflexivity. }
  rewrite Full_main_of, Plain_main_of.
  split; apply run_parse_exit with (code := 1%Z); exact E.
Qed.

Lemma absent_flag_field w args flag cfg :
  In flag required_flags -> ~ In flag args ->
  scanArgs args empty_config w [] = ([], Normal cfg) ->
  exists param, In param requiredParams /\ config_get cfg param = None.
Proof.
  intros I A S. pose proof (scanArgs_post args empty_config w []) as P.
  unfold scan_post in P. rewrite S in P. cbn [fst snd] in P.
  destruct P as (_ & P1 & P2 & P3 & P4 & _).
  cbn in I. destruct I as [<-|[<-|[<-|[<-|[]]]]].
  - exists "projectName". split; [cbn; tauto|]. cbn. rewrite P1; [reflexivity|assumption].
  - exists "baseToken". split; [cbn; tauto|]. cbn. rewrite P2; [reflexivity|assumption].
  - exists "solanaToken". split; [cbn; tauto|]. cbn. rewrite P3; [reflexivity|assumption].
  - exists "solanaPayer". split; [cbn; tauto|]. cbn. rewrite P4; [reflexivity|assumption].
Qed.

(** C9, as amended.  When the scanner reaches [-h] or [--help] at a flag
    position (everything before it was read as flags with their values,
    every [--mode] value being valid), both variants print exactly the
    usage text and exit with status 1, whatever follows; no command is
    run, since the usage line is the whole trace. *)
Theorem help_in_flag_position w pre h rest :
  reads_through pre = true ->
  is_help h = true ->
  run Full.main w (pre ++ h :: rest) = ([ConsoleLog [Str usage_text]], 1%Z)
  /\ run Plain.main w (pre ++ h :: rest) = ([ConsoleLog [Str usage_text]], 1%Z).
Proof.
  intros R H.
  assert (E : parseArgs (pre ++ h :: rest) w []
              = ([ConsoleLog [Str usage_text]], Exited 1%Z)).
  { rewrite parseArgs_unfold, (scanArgs_help _ _ _ _ _ _ R H). reflexivity. }
  rewrite Full_main_of, Plain_main_of.
  split; apply run_parse_exit with (code := 1%Z); exact E.
Qed.

Lemma help_in_flag_position_witness :
  run Full.main quiet_world ["--mode"; "locking"; "-h"; "--bogus"]
  = ([ConsoleLog [Str usage_text]], 1%Z)
  /\ run Plain.main quiet_world ["--mode"; "locking"; "-h"; "--bogus"]
     = ([ConsoleLog [Str usage_text]], 1%Z).
Proof.
  apply (help_in_flag_position quiet_world ["--mode"; "locking"] "-h" ["--bogus"]);
    reflexivity.
Defined.

(** C9 as stated fails: a [-h] that is consumed as the value of
    [--project-name] is not a help request; the run goes on to the
    deployment, starts running commands, prints no usage text and ends
    with status 0. *)
Lemma help_as_value_counterexample :
  In "-h" help_as_value_args
  /\ snd (run Full.main quiet_world help_as_value_args) = 0%Z
  /\ hd_error (commands (fst (run Full.main quiet_world help_as_value_args)))
     = Some "which solana"
  /\ ~ In (ConsoleLog [Str usage_text])
          (fst (run Full.main quiet_world help_as_value_args)).
Proof.
  split; [cbn; tauto|].
  split; [reflexivity|]. split; [reflexivity|].
  vm_compute. intuition discriminate.
Qed.

(** C6, as amended.  If a required flag does not occur in the argument
    list, both variants end with status 1 and run no command.  If moreover
    the scanner reads the whole list (no unknown option, no invalid mode,
    no help flag met), the trace is exactly the report of the first
    missing parameter, dash-cased, followed by the usage text. *)
Theorem missing_flag_reported w args flag :
  In flag required_flags ->
  ~ In flag args ->
  (snd (run Full.main w args) = 1%Z
   /\ commands (fst (run Full.main w args)) = []
   /\ snd (run Plain.main w args) = 1%Z
   /\ commands (fst (run Plain.main w args)) = [])
  /\ (forall cfg,
        scanArgs args empty_config w [] = ([], Normal cfg) ->
        exists param,
          first_missing cfg = Some param
          /\ run Full.main w args = (missing_report param, 1%Z)
          /\ run Plain.main w args = (missing_report param, 1%Z)).
Proof.
  intros I A.
  assert (Second : forall cfg,
        scanArgs args empty_config w [] = ([], Normal cfg) ->
        exists param,
          first_missing cfg = Some param
          /\ run Full.main w args = (missing_report param, 1%Z)
          /\ run Plain.main w args = (missing_report param, 1%Z)).
  { intros cfg S.
    destruct (absent_flag_field w args flag cfg I A S) as (q & Iq & G).
    destruct (first_missing_of_falsy cfg q Iq) as [p M]; [rewrite G; reflexivity|].
    exists p. split; [exact M|]. exact (parse_reports_missing w args cfg p S M). }
  split; [|exact Second].
  pose proof (scanArgs_post args empty_config w []) as P. unfold scan_post in P.
  destruct (scanArgs args empty_config w []) as [tr [cfg|e|code]] eqn:S;
    cbn [fst snd] in P.
  - destruct P as [-> _]. destruct (Second cfg eq_refl) as (p & _ & -> & ->).
    cbn. tauto.
  - contradiction.
  - assert (E : parseArgs args w [] = (tr, Exited code)).
    { rewrite parseArgs_unfold, S. reflexivity. }
    rewrite Full_main_of, Plain_main_of.
    destruct (run_parse_exit Full.deployNTT w args tr code E) as [-> C].
    destruct (run_parse_exit Plain.deployNTT w args tr code E) as [-> _].
    cbn [fst snd]. tauto.
Qed.

Lemma missing_flag_reported_witness :
  (snd (run Full.main quiet_world ["--base-token"; "0xAAA"]) = 1%Z
   /\ commands (fst (run Full.main quiet_world ["--base-token"; "0xAAA"])) = []
   /\ snd (run Plain.main quiet_world ["--base-token"; "0xAAA"]) = 1%Z
   /\ commands (fst (run Plain.main quiet_world ["--base-token"; "0xAAA"])) = [])
  /\ (forall cfg,
        scanArgs ["--base-token"; "0xAAA"] empty_config quiet_world []
        = ([], Normal cfg) ->
        exists param,
          first_missing cfg = Some param
          /\ run Full.main quiet_world ["--base-token"; "0xAAA"]
             = (missing_report param, 1%Z)
          /\ run Plain.main quiet_world ["--base-token"; "0xAAA"]
             = (missing_report param, 1%Z)).
Proof.
  apply (missing_flag_reported quiet_world ["--base-token"; "0xAAA"] "--project-name").
  - cbn. tauto.
  - cbn. intuition discriminate.
Defined.

(** C6 as stated fails: with the single argument [--bogus] all four
    required flags are missing, yet the script reports the unknown option
    and prints the usage text; no missing parameter is named. *)
Lemma unknown_option_counterexample :
  Forall (fun flag => ~ In flag ["--bogus"]) required_flags
  /\ run Full.main quiet_world ["--bogus"]
     = ([ConsoleError [Str "Unknown option: --bogus"];
         ConsoleLog [Str usage_text]], 1%Z)
  /\ run Plain.main quiet_world ["--bogus"]
     = ([ConsoleError [Str "Unknown option: --bogus"];
         ConsoleLog [Str usage_text]], 1%Z).
Proof.
  split; [|split; reflexivity].
  repeat constructor; cbn; intuition discriminate.
Qed.

(** C10.  After a completed scan, a required field holding the empty
    string is validated exactly as if it were [undefined]: [checkRequired]
    behaves the same on both configurations, both variants end with
    status 1 on the missing-parameter report and run no command, and the
    report names this very parameter when every parameter checked before
    it is present. *)
Theorem empty_value_is_missing w args cfg param :
  scanArgs args empty_config w [] = ([], Normal cfg) ->
  In param requiredParams ->
  config_get cfg param = Some "" ->
  (forall w' tr,
      checkRequired requiredParams cfg w' tr
      = checkRequired requiredParams (config_set cfg param None) w' tr)
  /\ (exists p,
        first_missing cfg = Some p
        /\ run Full.main w args = (missing_report p, 1%Z)
        /\ run Plain.main w args = (missing_report p, 1%Z))
  /\ (forallb (fun q => truthy (config_get cfg q))
              (params_before param requiredParams) = true ->
      first_missing cfg = Some param).
Proof.
  intros S I G. split; [|split].
  - intros w' tr. rewrite !checkRequired_find.
    destruct cfg as [a b c d m].
    cbn in I. destruct I as [<-|[<-|[<-|[<-|[]]]]]; cbn in G; subst;
      unfold config_set, first_missing; cbn;
      repeat match goal with
             | |- context [truthy ?x] => destruct x as [[|? ?]|]; cbn
             end;
      reflexivity.
  - destruct (first_missing_of_falsy cfg param I) as [p M];
      [rewrite G; reflexivity|].
    exists p. split; [exact M|]. exact (parse_reports_missing w args cfg p S M).
  - destruct cfg as [a b c d m].
    cbn in I. destruct I as [<-|[<-|[<-|[<-|[]]]]]; cbn in G; subst;
      cbn; intros T; repeat (apply andb_true_iff in T; destruct T as [?T T]);
      repeat match goal with H : truthy ?x = true |- _ => unfold first_missing; cbn; rewrite H; clear H end;
      reflexivity.
Qed.

Lemma empty_value_is_missing_witness :
  (forall w' tr,
      checkRequired requiredParams (set_projectName (Some "") empty_config) w' tr
      = checkRequired requiredParams
          (config_set (set_projectName (Some "") empty_config) "projectName" None)
          w' tr)
  /\ (exists p,
        first_missing (set_projectName (Some "") empty_config) = Some p
        /\ run Full.main quiet_world ["--project-name"; ""] = (missing_report p, 1%Z)
        /\ run Plain.main quiet_world ["--project-name"; ""] = (missing_report p, 1%Z))
  /\ (forallb (fun q => truthy (config_get (set_projectName (Some "") empty_config) q))
              (params_before "projectName" requiredParams) = true ->
      first_missing (set_projectName (Some "") empty_config) = Some "projectName").
Proof.
  apply (empty_value_is_missing quiet_world ["--project-name"; ""]
           (set_projectName (Some "") empty_config) "projectName").
  - reflexivity.
  - cbn. tauto.
  - reflexivity.
Defined.

(* ------------------------------------------------------------------ *)
(** ** Stepping through a script *)

Lemma bind_console_log {B} args (k : unit -> Js B) w tr :
  bind (console_log args) k w tr = k tt w (tr ++ [ConsoleLog args])%list.
Proof. reflexivity. Qed.

Lemma bind_console_error {B} args (k : unit -> Js B) w tr :
  bind (console_error args) k w tr = k tt w (tr ++ [ConsoleError args])%list.
Proof. reflexivity. Qed.

Lemma bind_writeFileSync {B} path data (k : unit -> Js B) w tr :
  bind (writeFileSync path data) k w tr
  = if write_fails w tr path
    then (tr, Thrown (WriteFileError path))
    else k tt w (tr ++ [WriteFileSync path data])%list.
Proof.
  unfold bind, writeFileSync. destruct (write_fails w tr path); reflexivity.
Qed.

Lemma bind_process_chdir {B} dir (k : unit -> Js B) w tr :
  bind (process_chdir dir) k w tr
  = if chdir_fails w tr dir
    then (tr, Thrown (ChdirError dir))
    else k tt w (tr ++ [Chdir dir])%list.
Proof.
  unfold bind, process_chdir. destruct (chdir_fails w tr dir); reflexivity.
Qed.

Lemma exited_zero_spec status :
  reflect (status = Some 0%Z) (exited_zero status).
Proof.
  destruct status as [st|]; cbn; [|constructor; discriminate].
  destruct (Z.eqb_spec st 0); constructor; congruence.
Qed.

Lemma execSync_eq cmd w tr :
  execSync cmd w tr =
  if exited_zero (fst (shell w tr cmd))
  then ((tr ++ [ExecSync cmd])%list, Normal (snd (shell w tr cmd)))
  else ((tr ++ [ExecSync cmd])%list,
        Thrown (ChildProcessError cmd (fst (shell w tr cmd)))).
Proof. unfold execSync. destruct (shell w tr cmd); reflexivity. Qed.

Lemma bind_execSync {B} cmd (k : string -> Js B) w tr :
  bind (execSync cmd) k w tr =
  if exited_zero (fst (shell w tr cmd))
  then k (snd (shell w tr cmd)) w (tr ++ [ExecSync cmd])%list
  else ((tr ++ [ExecSync cmd])%list,
        Thrown (ChildProcessError cmd (fst (shell w tr cmd)))).
Proof.
  unfold bind. rewrite execSync_eq.
  destruct (exited_zero (fst (shell w tr cmd))); reflexivity.
Qed.

Lemma bind_of_normal {A B} (m : Js A) (k : A -> Js B) w tr tr' a :
  m w tr = (tr', Normal a) -> bind m k w tr = k a w tr'.
Proof. intros E. unfold bind. rewrite E. reflexivity. Qed.

Lemma bind_of_thrown {A B} (m : Js A) (k : A -> Js B) w tr tr' e :
  m w tr = (tr', Thrown e) -> bind m k w tr = (tr', Thrown e).
Proof. intros E. unfold bind. rewrite E. reflexivity. Qed.

Lemma bind_of_exited {A B} (m : Js A) (k : A -> Js B) w tr tr' c :
  m w tr = (tr', Exited c) -> bind m k w tr = (tr', Exited c).
Proof. intros E. unfold bind. rewrite E. reflexivity. Qed.

(** One step of a script whose next statement prints. *)
Ltac step_quiet :=
  first [ rewrite bind_console_log
        | rewrite bind_console_error ];
  cbn [app].

(** One step at an [execSync], splitting on the exit status. *)
Ltac step_exec :=
  rewrite bind_execSync;
  match goal with
  | |- context [exited_zero (fst (shell ?w ?tr ?c))] =>
      destruct (exited_zero_spec (fst (shell w tr c))); cbn [app]
  end.

(** One step at a change of directory or a file write, splitting on
    whether it fails. *)
Ltac step_fs :=
  first
    [ rewrite bind_process_chdir;
      match goal with
      | |- context [chdir_fails ?w ?tr ?d] =>
          destruct (chdir_fails w tr d) eqn:?; cbn [app]
      end
    | rewrite bind_writeFileSync;
      match goal with
      | |- context [write_fails ?w ?tr ?p] =>
          destruct (write_fails w tr p) eqn:?; cbn [app]
      end ].

Lemma checkPrerequisites_eq w tr :
  Full.checkPrerequisites w tr =
  match (execSync "which solana" ;;
         execSync "which spl-token" ;;
         execSync "which anchor" ;;
         execSync "which forge" ;;
         execSync "which ntt" ;;
         ret tt) w tr with
  | (tr', Thrown _) => ((tr' ++ Full.remediation)%list, Exited 1%Z)
  | r => r
  end.
Proof.
  unfold Full.checkPrerequisites, try_catch.
  match goal with
  | |- match ?x with _ => _ end = _ => destruct x as [tr' [u|e|c]]
  end; try reflexivity.
  unfold Full.remediation. rewrite !bind_console_error.
  unfold process_exit. rewrite <- !app_assoc. reflexivity.
Qed.

(** A probe both did and did not exit with status 0. *)
Ltac probe_clash :=
  exfalso;
  match goal with
  | N : ?x <> Some 0%Z, E : ?x = Some 0%Z |- _ => exact (N E)
  | N : ?x <> Some 0%Z, B : _ -> ?x = Some 0%Z |- _ => apply N, B; lia
  end.

Lemma checkPrerequisites_fail w k :
  k < 5 ->
  (forall j, j < k -> probe_status w j = Some 0%Z) ->
  probe_status w k <> Some 0%Z ->
  Full.checkPrerequisites w []
  = ((map ExecSync (firstn (S k) Full.probes) ++ Full.remediation)%list,
     Exited 1%Z).
Proof.
  intros K Before Fail.
  assert (B0 := Before 0). assert (B1 := Before 1). assert (B2 := Before 2).
  assert (B3 := Before 3). clear Before.
  unfold probe_status in *. rewrite checkPrerequisites_eq.
  do 5 (destruct k as [|k];
        [cbn in B0, B1, B2, B3, Fail;
         repeat (step_exec; [try probe_clash | first [probe_clash | reflexivity]])
        |]).
  exfalso; lia.
Qed.

Lemma checkPrerequisites_pass w :
  (forall k, k < 5 -> probe_status w k = Some 0%Z) ->
  Full.checkPrerequisites w [] = (map ExecSync Full.probes, Normal tt).
Proof.
  intros P.
  assert (P0 := P 0). assert (P1 := P 1). assert (P2 := P 2).
  assert (P3 := P 3). assert (P4 := P 4). clear P.
  unfold probe_status in *. cbn in P0, P1, P2, P3, P4.
  rewrite checkPrerequisites_eq.
  repeat (step_exec; [|probe_clash]). reflexivity.
Qed.

(* ------------------------------------------------------------------ *)
(** ** Events a fragment can add *)

Section Emits.
Variable w : World.
Variable P : event -> bool.

Lemma emits_ret {A} (a : A) : emits w P (ret a).
Proof. intros tr. exists []. rewrite app_nil_r. split; reflexivity. Qed.

Lemma emits_throw {A} e : emits w P (@throw A e).
Proof. intros tr. exists []. rewrite app_nil_r. split; reflexivity. Qed.

Lemma emits_process_exit {A} c : emits w P (@process_exit A c).
Proof. intros tr. exists []. rewrite app_nil_r. split; reflexivity. Qed.

Lemma emits_emit e : P e = true -> emits w P (emit e).
Proof.
  intros H tr. exists [e]. split; [reflexivity|]. cbn. rewrite H. reflexivity.
Qed.

Lemma emits_execSync cmd : P (ExecSync cmd) = true -> emits w P (execSync cmd).
Proof.
  intros H tr. exists [ExecSync cmd]. rewrite execSync_eq.
  split; [destruct (exited_zero _); reflexivity|]. cbn. rewrite H. reflexivity.
Qed.

Lemma emits_writeFileSync path data :
  P (WriteFileSync path data) = true -> emits w P (writeFileSync path data).
Proof.
  intros H tr. unfold writeFileSync. destruct (write_fails w tr path).
  - exists []. rewrite app_nil_r. split; reflexivity.
  - exists [WriteFileSync path data]. split; [reflexivity|].
    cbn. rewrite H. reflexivity.
Qed.

Lemma emits_process_chdir dir :
  P (Chdir dir) = true -> emits w P (process_chdir dir).
Proof.
  intros H tr. unfold process_chdir. destruct (chdir_fails w tr dir).
  - exists []. rewrite app_nil_r. split; reflexivity.
  - exists [Chdir dir]. split; [reflexivity|]. cbn. rewrite H. reflexivity.
Qed.

Lemma emits_bind {A B} (m : Js A) (k : A -> Js B) :
  emits w P m -> (forall a, emits w P (k a)) -> emits w P (bind m k).
Proof.
  intros Hm Hk tr. destruct (Hm tr) as (evs & E & F).
  unfold bind. destruct (m w tr) as [tr' [a|e|c]]; cbn [fst] in E; subst tr'.
  - destruct (Hk a (tr ++ evs)%list) as (evs' & E' & F').
    exists (evs ++ evs')%list. rewrite E', app_assoc, forallb_app, F, F'.
    split; reflexivity.
  - exists evs. split; [reflexivity | assumption].
  - exists evs. split; [reflexivity | assumption].
Qed.

Lemma emits_try_catch {A} (m : Js A) (h : js_error -> Js A) :
  emits w P m -> (forall e, emits w P (h e)) -> emits w P (try_catch m h).
Proof.
  intros Hm Hh tr. destruct (Hm tr) as (evs & E & F).
  unfold try_catch. destruct (m w tr) as [tr' [a|e|c]]; cbn [fst] in E; subst tr'.
  - exists evs. split; [reflexivity | assumption].
  - destruct (Hh e (tr ++ evs)%list) as (evs' & E' & F').
    exists (evs ++ evs')%list. rewrite E', app_assoc, forallb_app, F, F'.
    split; reflexivity.
  - exists evs. split; [reflexivity | assumption].
Qed.
End Emits.

Ltac emits_auto :=
  unfold console_log, console_error;
  repeat first
    [ assumption
    | apply emits_ret
    | apply emits_throw
    | apply emits_process_exit
    | apply emits_emit; reflexivity
    | apply emits_writeFileSync; reflexivity
    | apply emits_process_chdir; reflexivity
    | apply emits_execSync; reflexivity
    | apply emits_bind; [|intros]
    | apply emits_try_catch; [|intros]
    | match goal with
      | |- emits _ _ (if ?b then _ else _) => destruct b
      | |- emits _ _ (match ?x with _ => _ end) => destruct x
      end ].

Lemma emits_findNttKeypairFile w P :
  P (ExecSync locator_command) = true -> emits w P Full.findNttKeypairFile.
Proof.
  intros H. unfold Full.findNttKeypairFile.
  apply emits_try_catch.
  - apply emits_bind; [apply emits_execSync, H|]. intros out. emits_auto.
  - intros e. emits_auto.
Qed.

Lemma parseArgs_quiet w args : commands (fst (parseArgs args w [])) = [].
Proof.
  pose proof (parseArgs_post w args []) as P. unfold parse_post in P.
  destruct (parseArgs args w []) as [tr [cfg|e|code]]; cbn [fst snd] in *.
  - destruct P as [-> _]. reflexivity.
  - contradiction.
  - destruct P as (_ & msgs & -> & M). apply commands_console, M.
Qed.

Lemma parseArgs_normal_nil w args tr cfg :
  parseArgs args w [] = (tr, Normal cfg) -> tr = [].
Proof.
  intros E. pose proof (parseArgs_post w args []) as P. unfold parse_post in P.
  rewrite E in P. cbn [fst snd] in P. tauto.
Qed.

Lemma parseArgs_mode_omitted w args cfg :
  ~ In "--mode" args ->
  parseArgs args w [] = ([], Normal cfg) -> mode cfg = None.
Proof.
  intros A E. pose proof (parseArgs_post w args []) as P. unfold parse_post in P.
  rewrite E in P. cbn [fst snd] in P. destruct P as (_ & S & _).
  pose proof (scanArgs_post args empty_config w []) as Q. unfold scan_post in Q.
  rewrite S in Q. cbn [fst snd] in Q.
  destruct Q as (_ & _ & _ & _ & _ & M). exact (M A).
Qed.

(** A property of events that holds of all console output and of all that
    [deploy] emits holds along every run of the script. *)
Lemma run_emits (P : event -> bool) deploy w args :
  (forall e, is_console e = true -> P e = true) ->
  (forall cfg, parseArgs args w [] = ([], Normal cfg) -> emits w P (deploy cfg)) ->
  forallb P (fst (run (main_of deploy) w args)) = true.
Proof.
  intros C D.
  assert (Cs : forall msgs, forallb is_console msgs = true -> forallb P msgs = true).
  { induction msgs as [|e msgs IH]; [reflexivity|]. cbn.
    intros H. apply andb_true_iff in H. destruct H as [H1 H2].
    rewrite (C e H1), (IH H2). reflexivity. }
  pose proof (parseArgs_post w args []) as Q. unfold parse_post in Q.
  destruct (parseArgs args w []) as [tr [cfg|e|code]] eqn:E; cbn [fst snd] in Q.
  - destruct Q as (-> & _). rewrite (run_parse_ok deploy w args cfg E).
    destruct (D cfg eq_refl []) as (evs & F & G). cbn [app] in F.
    destruct (deploy cfg w []) as [tr [u|e|code]]; cbn [fst] in *; subst tr;
      try assumption.
    rewrite forallb_app, G. cbn.
    rewrite (C (ConsoleError [Obj e]) eq_refl). reflexivity.
  - contradiction.
  - destruct (run_parse_exit deploy w args tr code E) as [-> _].
    destruct Q as (_ & msgs & -> & M). cbn. apply Cs, M.
Qed.

Lemma run_trace_extends deploy w args cfg :
  parseArgs args w [] = ([], Normal cfg) ->
  exists tail,
    fst (run (main_of deploy) w args) = (fst (deploy cfg w []) ++ tail)%list
    /\ forallb is_console tail = true.
Proof.
  intros E. rewrite (run_parse_ok deploy w args cfg E).
  destruct (deploy cfg w []) as [tr [u|e|code]]; cbn [fst].
  - exists []. rewrite app_nil_r. split; reflexivity.
  - exists [ConsoleError [Obj e]]. split; reflexivity.
  - exists []. rewrite app_nil_r. split; reflexivity.
Qed.

(** A command that is issued stays the next event, whatever follows. *)
Lemma execSync_then w {B} cmd (k : string -> Js B) tr :
  (forall out, emits w any_event (k out)) ->
  exists rest,
    fst (bind (execSync cmd) k w tr) = (tr ++ ExecSync cmd :: rest)%list.
Proof.
  intros H. rewrite bind_execSync.
  destruct (exited_zero (fst (shell w tr cmd))).
  - destruct (H (snd (shell w tr cmd)) (tr ++ [ExecSync cmd])%list)
      as (evs & -> & _).
    exists evs. rewrite <- app_assoc. reflexivity.
  - exists []. reflexivity.
Qed.

Lemma Full_deploy_starts w cfg :
  (forall k, k < 5 -> probe_status w k = Some 0%Z) ->
  exists rest,
    fst (Full.deployNTT cfg w [])
    = (map ExecSync Full.probes
       ++ ConsoleLog [Str ("Creating new NTT project: " ++ interp (projectName cfg))]
       :: ExecSync ("ntt new " ++ interp (projectName cfg)) :: rest)%list.
Proof.
  intros Pass. unfold Full.deployNTT. cbv zeta.
  rewrite (bind_of_normal _ _ _ _ _ _ (checkPrerequisites_pass w Pass)).
  step_quiet.
  match goal with
  | |- context [bind (execSync ?c) ?k w ?tr] =>
      destruct (execSync_then w c k tr) as (rest & ->)
  end.
  - intros out. pose proof (emits_findNttKeypairFile w any_event eq_refl).
    unfold Full.prepareSolanaDeployment. cbv zeta. emits_auto.
  - exists rest. rewrite <- app_assoc. reflexivity.
Qed.

Lemma Plain_deploy_starts w cfg :
  exists rest,
    fst (Plain.deployNTT cfg w [])
    = ConsoleLog [Str ("Creating new NTT project: " ++ interp (projectName cfg))]
      :: ExecSync ("ntt new " ++ interp (projectName cfg)) :: rest.
Proof.
  unfold Plain.deployNTT. cbv zeta. step_quiet.
  match goal with
  | |- context [bind (execSync ?c) ?k w ?tr] =>
      destruct (execSync_then w c k tr) as (rest & ->)
  end.
  - intros out. emits_auto.
  - exists rest. reflexivity.
Qed.

Lemma emits_Plain_no_probe w cfg : emits w no_probe (Plain.deployNTT cfg).
Proof. unfold Plain.deployNTT. cbv zeta. emits_auto. Qed.

(** C4, as amended.  The parser runs no command.  In the full script, once
    the parser has returned a configuration, the probes [which solana],
    [which spl-token], [which anchor], [which forge], [which ntt] run in
    this order before anything else: if the first failing probe is the
    [k]-th, the run consists of the probes up to it followed by the five
    remediation lines and ends with status 1, with no deployment command;
    if all five succeed, the deployment follows at once, with the project
    line and [ntt new] as the next events.  The variant of
    src/deploy-ntt.ts never probes: its first events are the project line
    and [ntt new]. *)
Theorem probes_before_deployment w args :
  commands (fst (parseArgs args w [])) = []
  /\ forallb no_probe (fst (run Plain.main w args)) = true
  /\ forall cfg,
       parseArgs args w [] = ([], Normal cfg) ->
       (forall k,
           k < 5 ->
           (forall j, j < k -> probe_status w j = Some 0%Z) ->
           probe_status w k <> Some 0%Z ->
           run Full.main w args
           = ((map ExecSync (firstn (S k) Full.probes) ++ Full.remediation)%list,
              1%Z))
       /\ ((forall k, k < 5 -> probe_status w k = Some 0%Z) ->
           exists rest,
             fst (run Full.main w args)
             = (map ExecSync Full.probes
                ++ ConsoleLog [Str ("Creating new NTT project: "
                                    ++ interp (projectName cfg))]
                :: ExecSync ("ntt new " ++ interp (projectName cfg))
                :: rest)%list)
       /\ (exists rest,
             fst (run Plain.main w args)
             = ConsoleLog [Str ("Creating new NTT project: "
                                ++ interp (projectName cfg))]
               :: ExecSync ("ntt new " ++ interp (projectName cfg)) :: rest).
Proof.
  split; [apply parseArgs_quiet|]. split.
  { rewrite Plain_main_of. apply run_emits.
    - intros [] E; try discriminate; reflexivity.
    - intros cfg _. apply emits_Plain_no_probe. }
  intros cfg E. split; [|split].
  - intros k K Before Fail.
    rewrite Full_main_of, (run_parse_ok _ w args cfg E).
    unfold Full.deployNTT. cbv zeta.
    rewrite (bind_of_exited _ _ _ _ _ _ (checkPrerequisites_fail w k K Before Fail)).
    reflexivity.
  - intros Pass. rewrite Full_main_of.
    destruct (run_trace_extends Full.deployNTT w args cfg E) as (tail & -> & _).
    destruct (Full_deploy_starts w cfg Pass) as (rest & ->).
    exists (rest ++ tail)%list. rewrite <- app_assoc. reflexivity.
  - rewrite Plain_main_of.
    destruct (run_trace_extends Plain.deployNTT w args cfg E) as (tail & -> & _).
    destruct (Plain_deploy_starts w cfg) as (rest & ->).
    exists (rest ++ tail)%list. reflexivity.
Qed.

(* ------------------------------------------------------------------ *)
(** ** The orchestrator *)

Lemma overrides_serialized : JSON_stringify overrides 2 = overrides_text.
Proof. reflexivity. Qed.

Lemma writes_from_leaves dirs tr evs :
  forallb leaves_files evs = true ->
  writes_from dirs (tr ++ evs)%list = writes_from dirs tr.
Proof.
  intros H. revert dirs. induction tr as [|e tr IH]; intros dirs.
  - cbn [app]. revert dirs. induction evs as [|e evs IH]; intros dirs; [reflexivity|].
    cbn in H. apply andb_true_iff in H. destruct H as [H1 H2].
    destruct e; cbn in H1 |- *; try discriminate; apply IH, H2.
  - destruct e; cbn; rewrite ?IH; reflexivity.
Qed.

Lemma all_succeed_probes w :
  all_succeed w -> forall k, k < 5 -> probe_status w k = Some 0%Z.
Proof. intros [H _] k _. apply H. Qed.

(** One step of a run in which everything asked of the outside world
    succeeds. *)
Ltac step_ok H :=
  first
    [ rewrite bind_execSync;
      match goal with
      | |- context [exited_zero (fst (shell ?w ?tr ?c))] =>
          rewrite (proj1 H tr c); cbn [exited_zero Z.eqb app]
      end
    | rewrite bind_process_chdir;
      match goal with
      | |- context [chdir_fails ?w ?tr ?d] =>
          rewrite (proj1 (proj2 H) tr d); cbn [app]
      end
    | rewrite bind_writeFileSync;
      match goal with
      | |- context [write_fails ?w ?tr ?f] =>
          rewrite (proj2 (proj2 H) tr f); cbn [app]
      end ].

Lemma mode_word_eq m : Mode_to_string (mode_or_default m) = mode_word m.
Proof. destruct m as [[]|]; reflexivity. Qed.

Lemma Full_deploy_unprepared w cfg :
  all_succeed w ->
  Full.is_burning (mode cfg) = false ->
  exists tr,
    Full.deployNTT cfg w [] = (tr, Normal tt)
    /\ commands tr = (Full.probes ++ chain_sequence cfg)%list
    /\ writes tr = [overrides_write cfg].
Proof.
  intros H M. unfold Full.deployNTT. cbv zeta.
  rewrite (bind_of_normal _ _ _ _ _ _
             (checkPrerequisites_pass w (all_succeed_probes w H))).
  unfold Full.prepareSolanaDeployment. rewrite M. cbv zeta.
  cbn [map Full.probes].
  repeat first [step_quiet | step_ok H].
  rewrite (bind_of_normal _ _ _ _ _ tt eq_refl).
  repeat first [step_quiet | step_ok H].
  unfold console_log, emit. cbn [app].
  eexists. split; [reflexivity|].
  unfold chain_sequence. rewrite <- mode_word_eq. split; reflexivity.
Qed.

Lemma parse_demo w :
  fs_exists w "./payer.json" = true ->
  parseArgs demo_args w [] = ([], Normal demo_config).
Proof.
  intros F. rewrite parseArgs_unfold. cbn. rewrite F. reflexivity.
Qed.

Lemma run_deploy_normal deploy w args cfg tr :
  parseArgs args w [] = ([], Normal cfg) ->
  deploy cfg w [] = (tr, Normal tt) ->
  run (main_of deploy) w args = (tr, 0%Z).
Proof.
  intros E D. rewrite (run_parse_ok deploy w args cfg E), D. reflexivity.
Qed.

(** C1, the code at the scenario's input.  With the payer file present and
    everything asked of the outside world succeeding (every command, the
    change of directory, the write), the full script runs the five probes, then
    [ntt new demo], [ntt init Testnet], the two [add-chain] commands with
    [--mode burning], the push and the read-back, and writes overrides.json
    in between: no keypair is generated or located, no authority address
    derived, and the mint authority is not reassigned. *)
Theorem default_mode_scenario w :
  all_succeed w ->
  fs_exists w "./payer.json" = true ->
  commands (fst (run Full.main w demo_args))
  = ["which solana"; "which spl-token"; "which anchor"; "which forge";
     "which ntt";
     "ntt new demo";
     "ntt init Testnet";
     "ntt add-chain Solana --token TokenkegQfeZyiNwAJbNbGKPFXCWuBvf9Ss623VQ5DA --mode burning --latest --payer ./payer.json";
     "ntt add-chain Base --token 0xAAA --mode burning --latest --skip-verify";
     "ntt push --yes --payer ./payer.json";
     "cat deployment.json"]
  /\ writes (fst (run Full.main w demo_args))
     = [(["demo"], "overrides.json", overrides_text)]
  /\ snd (run Full.main w demo_args) = 0%Z.
Proof.
  intros H F.
  destruct (Full_deploy_unprepared w demo_config H eq_refl) as (tr & D & C & W).
  rewrite Full_main_of, (run_deploy_normal _ w demo_args demo_config tr (parse_demo w F) D).
  cbn [fst snd]. rewrite C, W. repeat split.
Qed.

Lemma default_mode_scenario_witness :
  commands (fst (run Full.main quiet_world demo_args))
  = ["which solana"; "which spl-token"; "which anchor"; "which forge";
     "which ntt";
     "ntt new demo";
     "ntt init Testnet";
     "ntt add-chain Solana --token TokenkegQfeZyiNwAJbNbGKPFXCWuBvf9Ss623VQ5DA --mode burning --latest --payer ./payer.json";
     "ntt add-chain Base --token 0xAAA --mode burning --latest --skip-verify";
     "ntt push --yes --payer ./payer.json";
     "cat deployment.json"]
  /\ writes (fst (run Full.main quiet_world demo_args))
     = [(["demo"], "overrides.json", overrides_text)]
  /\ snd (run Full.main quiet_world demo_args) = 0%Z.
Proof.
  apply (default_mode_scenario quiet_world).
  - split; [|split]; intros tr x; reflexivity.
  - reflexivity.
Defined.

(** C2, the code at an execution error.  When [deployNTT] ends by a throw
    (a command did not exit with status 0, the change of directory or the
    write failed, or the locator raised), the
    rejection is printed by [console.error] and the process ends with
    status 0, in both variants. *)
Theorem execution_error_exit_status w args cfg :
  parseArgs args w [] = ([], Normal cfg) ->
  (forall tr e,
      Full.deployNTT cfg w [] = (tr, Thrown e) ->
      run Full.main w args = ((tr ++ [ConsoleError [Obj e]])%list, 0%Z))
  /\ (forall tr e,
        Plain.deployNTT cfg w [] = (tr, Thrown e) ->
        run Plain.main w args = ((tr ++ [ConsoleError [Obj e]])%list, 0%Z)).
Proof.
  intros E. split; intros tr e D.
  - rewrite Full_main_of, (run_parse_ok _ w args cfg E), D. reflexivity.
  - rewrite Plain_main_of, (run_parse_ok _ w args cfg E), D. reflexivity.
Qed.

Lemma execution_error_exit_status_witness :
  run Full.main new_fails_world demo_args
  = ([ExecSync "which solana"; ExecSync "which spl-token";
      ExecSync "which anchor"; ExecSync "which forge"; ExecSync "which ntt";
      ConsoleLog [Str "Creating new NTT project: demo"];
      ExecSync "ntt new demo";
      ConsoleError [Obj (ChildProcessError "ntt new demo" (Some 1%Z))]], 0%Z)
  /\ run Plain.main new_fails_world demo_args
     = ([ConsoleLog [Str "Creating new NTT project: demo"];
         ExecSync "ntt new demo";
         ConsoleError [Obj (ChildProcessError "ntt new demo" (Some 1%Z))]], 0%Z).
Proof.
  destruct (execution_error_exit_status new_fails_world demo_args demo_config
              eq_refl) as [F P].
  split.
  - apply (F [ExecSync "which solana"; ExecSync "which spl-token";
              ExecSync "which anchor"; ExecSync "which forge"; ExecSync "which ntt";
              ConsoleLog [Str "Creating new NTT project: demo"];
              ExecSync "ntt new demo"]
             (ChildProcessError "ntt new demo" (Some 1%Z))).
    reflexivity.
  - apply (P [ConsoleLog [Str "Creating new NTT project: demo"];
              ExecSync "ntt new demo"]
             (ChildProcessError "ntt new demo" (Some 1%Z))).
    reflexivity.
Defined.

Lemma emits_deploy_mode_omitted w P cfg :
  mode cfg = None ->
  (forall cmd, In cmd Full.probes -> P (ExecSync cmd) = true) ->
  (forall e, is_console e = true -> P e = true) ->
  (forall e, leaves_files e = false -> P e = true) ->
  (forall cmd, In cmd (chain_sequence cfg) -> P (ExecSync cmd) = true) ->
  emits w P (Full.deployNTT cfg).
Proof.
  intros M Pp Pc Pf Pd.
  unfold chain_sequence, chain_commands_text in Pd. rewrite M in Pd.
  cbn [mode_word] in Pd.
  unfold Full.deployNTT, Full.checkPrerequisites, Full.prepareSolanaDeployment.
  rewrite M. cbv zeta. cbn [Full.is_burning mode_or_default].
  unfold console_log, console_error.
  repeat first
    [ apply emits_ret
    | apply emits_process_exit
    | apply emits_bind; [|intros]
    | apply emits_try_catch; [|intros]
    | apply emits_execSync;
      first [apply Pp; cbn; tauto | apply Pd; cbn; tauto]
    | apply emits_writeFileSync; apply Pf; reflexivity
    | apply emits_process_chdir; apply Pf; reflexivity
    | apply emits_emit; first [apply Pc; reflexivity | apply Pf; reflexivity] ].
Qed.

Ltac from_list I :=
  cbn in I;
  repeat match type of I with
         | _ \/ _ => destruct I as [<-|I]
         | False => destruct I
         end.

(** C3.  When [--mode] does not occur among the arguments, no run of the
    full script issues a command of the preparation step (one that starts
    with [solana-keygen], [ls], [ntt solana token-authority] or [spl-token
    authorize]); the parsed configuration has no mode; every [add-chain]
    command issued is, letter for letter, one of the two that say [--mode
    burning]; and when everything asked of the outside world succeeds both
    are issued, the commands of the run being exactly the five probes,
    [ntt new], [ntt init Testnet], the two [add-chain] commands with [--mode
    burning], the push and the read-back. *)
Theorem omitted_mode_skips_preparation w args :
  ~ In "--mode" args ->
  forallb no_preparation (fst (run Full.main w args)) = true
  /\ forall cfg,
       parseArgs args w [] = ([], Normal cfg) ->
       mode cfg = None
       /\ forallb (add_chain_burning cfg) (fst (run Full.main w args)) = true
       /\ (all_succeed w ->
           commands (fst (run Full.main w args))
           = ["which solana"; "which spl-token"; "which anchor";
              "which forge"; "which ntt";
              "ntt new " ++ interp (projectName cfg);
              "ntt init Testnet";
              "ntt add-chain Solana --token " ++ interp (solanaToken cfg)
              ++ " --mode burning --latest --payer "
              ++ interp (solanaPayer cfg);
              "ntt add-chain Base --token " ++ interp (baseToken cfg)
              ++ " --mode burning --latest --skip-verify";
              "ntt push --yes --payer " ++ interp (solanaPayer cfg);
              "cat deployment.json"]).
Proof.
  intros A. split.
  - rewrite Full_main_of. apply run_emits.
    + intros [] E; try discriminate; reflexivity.
    + intros cfg E. pose proof (parseArgs_mode_omitted w args cfg A E) as M.
      apply emits_deploy_mode_omitted; try exact M.
      * intros cmd I. from_list I; reflexivity.
      * intros [] E'; try discriminate; reflexivity.
      * intros [] E'; try discriminate; reflexivity.
      * intros cmd I. unfold chain_sequence in I. rewrite M in I.
        from_list I; reflexivity.
  - intros cfg E. pose proof (parseArgs_mode_omitted w args cfg A E) as M.
    split; [exact M|]. split.
    + rewrite Full_main_of. apply run_emits.
      * intros [] E'; try discriminate; reflexivity.
      * intros cfg' E'. rewrite E in E'. injection E' as <-.
        apply emits_deploy_mode_omitted; try exact M.
        -- intros cmd I. from_list I; reflexivity.
        -- intros [] E'; try discriminate; reflexivity.
        -- intros [] E'; try discriminate; reflexivity.
        -- intros cmd I. unfold chain_sequence in I. rewrite M in I.
           from_list I; try reflexivity;
             cbn; rewrite String.eqb_refl, ?orb_true_r; reflexivity.
    + intros H.
      destruct (Full_deploy_unprepared w cfg H) as (tr & D & C & _).
      { rewrite M. reflexivity. }
      rewrite Full_main_of, (run_deploy_normal _ w args cfg tr E D).
      cbn [fst]. rewrite C. unfold chain_sequence. rewrite M. reflexivity.
Qed.

Lemma probes_before_deployment_witness :
  run Full.main anchor_missing_world demo_args
  = ((map ExecSync ["which solana"; "which spl-token"; "which anchor"]
      ++ Full.remediation)%list, 1%Z)
  /\ (exists rest,
        fst (run Full.main quiet_world demo_args)
        = (map ExecSync Full.probes
           ++ ConsoleLog [Str "Creating new NTT project: demo"]
           :: ExecSync "ntt new demo" :: rest)%list)
  /\ (exists rest,
        fst (run Plain.main anchor_missing_world demo_args)
        = ConsoleLog [Str "Creating new NTT project: demo"]
          :: ExecSync "ntt new demo" :: rest).
Proof.
  destruct (probes_before_deployment anchor_missing_world demo_args)
    as (_ & _ & H).
  destruct (H demo_config eq_refl) as (F & _ & P).
  destruct (probes_before_deployment quiet_world demo_args) as (_ & _ & Q).
  destruct (Q demo_config eq_refl) as (_ & S & _).
  split; [|split].
  - apply (F 2).
    + lia.
    + intros [|[|j]] J; [reflexivity | reflexivity | lia].
    + discriminate.
  - apply S. intros k K. reflexivity.
  - exact P.
Defined.

(** C4 as stated fails for the variant in src/deploy-ntt.ts, which has no
    prerequisite check: in a world where [which anchor] would fail it
    probes nothing and runs the whole deployment. *)
Lemma plain_variant_counterexample :
  run Plain.main anchor_missing_world demo_args
  = ([ConsoleLog [Str "Creating new NTT project: demo"];
      ExecSync "ntt new demo";
      Chdir "demo";
      ConsoleLog [Str "Initializing project for Testnet"];
      ExecSync "ntt init Testnet";
      WriteFileSync "overrides.json" overrides_text;
      ConsoleLog [Str "Adding Solana chain..."];
      ExecSync "ntt add-chain Solana --token TokenkegQfeZyiNwAJbNbGKPFXCWuBvf9Ss623VQ5DA --mode burning --latest --payer ./payer.json";
      ConsoleLog [Str "Adding Base chain..."];
      ExecSync "ntt add-chain Base --token 0xAAA --mode burning --latest --skip-verify";
      ConsoleLog [Str "Pushing configuration..."];
      ExecSync "ntt push --yes --payer ./payer.json";
      ConsoleLog [Str "Deployment complete! Configuration saved in deployment.json"];
      ExecSync "cat deployment.json";
      ConsoleLog [Str ""]], 0%Z).
Proof. reflexivity. Qed.

Lemma omitted_mode_skips_preparation_witness :
  forallb no_preparation (fst (run Full.main quiet_world demo_args)) = true
  /\ forall cfg,
       parseArgs demo_args quiet_world [] = ([], Normal cfg) ->
       mode cfg = None
       /\ forallb (add_chain_burning cfg)
            (fst (run Full.main quiet_world demo_args)) = true
       /\ (all_succeed quiet_world ->
           commands (fst (run Full.main quiet_world demo_args))
           = ["which solana"; "which spl-token"; "which anchor";
              "which forge"; "which ntt";
              "ntt new " ++ interp (projectName cfg);
              "ntt init Testnet";
              "ntt add-chain Solana --token " ++ interp (solanaToken cfg)
              ++ " --mode burning --latest --payer "
              ++ interp (solanaPayer cfg);
              "ntt add-chain Base --token " ++ interp (baseToken cfg)
              ++ " --mode burning --latest --skip-verify";
              "ntt push --yes --payer " ++ interp (solanaPayer cfg);
              "cat deployment.json"]).
Proof.
  apply (omitted_mode_skips_preparation quiet_world demo_args).
  cbn. intuition discriminate.
Defined.

Lemma probe_cases w :
  (forall k, k < 5 -> probe_status w k = Some 0%Z)
  \/ exists k, k < 5 /\ (forall j, j < k -> probe_status w j = Some 0%Z)
               /\ probe_status w k <> Some 0%Z.
Proof.
  destruct (exited_zero_spec (probe_status w 0)) as [E0|];
    [|right; exists 0; repeat split; [lia|intros; lia|assumption]].
  destruct (exited_zero_spec (probe_status w 1)) as [E1|];
    [|right; exists 1; repeat split; [lia| |assumption];
      intros [|j] J; [assumption|lia]].
  destruct (exited_zero_spec (probe_status w 2)) as [E2|];
    [|right; exists 2; repeat split; [lia| |assumption];
      intros [|[|j]] J; [assumption..|lia]].
  destruct (exited_zero_spec (probe_status w 3)) as [E3|];
    [|right; exists 3; repeat split; [lia| |assumption];
      intros [|[|[|j]]] J; [assumption..|lia]].
  destruct (exited_zero_spec (probe_status w 4)) as [E4|];
    [|right; exists 4; repeat split; [lia| |assumption];
      intros [|[|[|[|j]]]] J; [assumption..|lia]].
  left. intros [|[|[|[|[|k]]]]] K; [assumption..|lia].
Qed.

Lemma writes_probes_prefix k :
  writes (map ExecSync (firstn k Full.probes) ++ Full.remediation)%list = [].
Proof.
  do 6 (destruct k as [|k]; [reflexivity|]). reflexivity.
Qed.

(** A run in which a command, the change of directory or the write
    failed is not one in which everything succeeds. *)
Ltac refute_all_succeed :=
  match goal with
  | N : fst (shell ?w ?tr ?c) <> Some 0%Z |- _ =>
      right; split; [reflexivity | intros H; exact (N (proj1 H tr c))]
  | E : chdir_fails ?w ?tr ?d = true |- _ =>
      right; split;
      [reflexivity
      | intros H; rewrite (proj1 (proj2 H) tr d) in E; discriminate E]
  | E : write_fails ?w ?tr ?f = true |- _ =>
      right; split;
      [reflexivity
      | intros H; rewrite (proj2 (proj2 H) tr f) in E; discriminate E]
  end.

Lemma Full_deploy_writes w cfg :
  writes (fst (Full.deployNTT cfg w [])) = [overrides_write cfg]
  \/ (writes (fst (Full.deployNTT cfg w [])) = [] /\ ~ all_succeed w).
Proof.
  unfold Full.deployNTT. cbv zeta.
  destruct (probe_cases w) as [Pass | (k & K & Before & Fail)].
  - rewrite (bind_of_normal _ _ _ _ _ _ (checkPrerequisites_pass w Pass)).
    cbn [map Full.probes].
    step_quiet. step_exec; [|refute_all_succeed].
    step_fs; [refute_all_succeed|].
    step_quiet. step_exec; [|refute_all_succeed].
    step_fs; [refute_all_succeed|]. left.
    match goal with
    | |- context [bind (Full.prepareSolanaDeployment cfg) ?k w ?tr] =>
        assert (Em : emits w leaves_files (bind (Full.prepareSolanaDeployment cfg) k));
        [|destruct (Em tr) as (evs & -> & L)]
    end.
    { pose proof (emits_findNttKeypairFile w leaves_files eq_refl).
      unfold Full.prepareSolanaDeployment. cbv zeta. emits_auto. }
    unfold writes. rewrite (writes_from_leaves _ _ _ L). reflexivity.
  - rewrite (bind_of_exited _ _ _ _ _ _ (checkPrerequisites_fail w k K Before Fail)).
    cbn [fst]. right. split; [apply writes_probes_prefix|].
    intros H. exact (Fail (all_succeed_probes w H k K)).
Qed.

Lemma Plain_deploy_writes w cfg :
  writes (fst (Plain.deployNTT cfg w [])) = [overrides_write cfg]
  \/ (writes (fst (Plain.deployNTT cfg w [])) = [] /\ ~ all_succeed w).
Proof.
  unfold Plain.deployNTT. cbv zeta.
  step_quiet. step_exec; [|refute_all_succeed].
  step_fs; [refute_all_succeed|].
  step_quiet. step_exec; [|refute_all_succeed].
  step_fs; [refute_all_succeed|]. left.
  match goal with
  | |- context [bind ?m ?k w ?tr] =>
      assert (Em : emits w leaves_files (bind m k));
      [emits_auto | destruct (Em tr) as (evs & -> & L)]
  end.
  unfold writes. rewrite (writes_from_leaves _ _ _ L). reflexivity.
Qed.

(** C7.  The object serialized with two-space indentation is the fixed
    text of [overrides_text]: the two default RPC endpoints under
    [chains.Base.rpc] and [chains.Solana.rpc].  In both variants, for every
    configuration and every world, a deployment writes no file or exactly
    this one, named overrides.json, after changing into the project
    directory; the data written mentions no field of the configuration.
    When everything asked of the outside world succeeds (every command,
    the change of directory and the write itself) the file is written. *)
Theorem overrides_file_fixed w cfg :
  JSON_stringify overrides 2 = overrides_text
  /\ (writes (fst (Full.deployNTT cfg w [])) = [overrides_write cfg]
      \/ writes (fst (Full.deployNTT cfg w [])) = [])
  /\ (writes (fst (Plain.deployNTT cfg w [])) = [overrides_write cfg]
      \/ writes (fst (Plain.deployNTT cfg w [])) = [])
  /\ (all_succeed w ->
      writes (fst (Full.deployNTT cfg w [])) = [overrides_write cfg]
      /\ writes (fst (Plain.deployNTT cfg w [])) = [overrides_write cfg]).
Proof.
  split; [exact overrides_serialized|].
  split; [destruct (Full_deploy_writes w cfg) as [F|[F _]]; auto|].
  split; [destruct (Plain_deploy_writes w cfg) as [P|[P _]]; auto|].
  intros H. split.
  - destruct (Full_deploy_writes w cfg) as [F|[_ N]]; [exact F | contradiction].
  - destruct (Plain_deploy_writes w cfg) as [P|[_ N]]; [exact P | contradiction].
Qed.

Lemma overrides_file_fixed_witness :
  writes (fst (Full.deployNTT demo_config quiet_world []))
  = [(["demo"], "overrides.json", overrides_text)]
  /\ writes (fst (Plain.deployNTT demo_config quiet_world []))
     = [(["demo"], "overrides.json", overrides_text)].
Proof.
  destruct (overrides_file_fixed quiet_world demo_config) as (_ & _ & _ & H).
  apply H. split; [|split]; intros tr x; reflexivity.
Defined.

(* ------------------------------------------------------------------ *)
(** ** The keypair locator *)

Lemma locator_accepts_eq name :
  locator_accepts name
  = match_here true
      ((Lit "n", false) :: (Lit "t", false) :: (Lit "t", false)
       :: (AnyChar, true) :: pattern_tail) name.
Proof. reflexivity. Qed.

Lemma atom_matches_Lit l c :
  atom_matches (Lit l) c = true <-> toLowerCase_char c = toLowerCase_char l.
Proof.
  unfold atom_matches. rewrite Ascii.eqb_eq. split; congruence.
Qed.

Lemma match_tail_iff s :
  match_here true pattern_tail s = true
  <-> exists c s4, s = String c s4 /\ toLowerCase s4 = "json".
Proof.
  unfold pattern_tail. split.
  - destruct s as [|c [|c1 [|c2 [|c3 [|c4 [|c5 s]]]]]]; cbn [match_here];
      try discriminate;
      rewrite ?andb_false_r; try discriminate.
    rewrite !andb_true_iff, !atom_matches_Lit. intros (_ & J & S & O & N & _).
    exists c, (String c1 (String c2 (String c3 (String c4 "")))).
    split; [reflexivity|]. cbn [toLowerCase]. rewrite J, S, O, N. reflexivity.
  - intros (c & s4 & -> & L).
    destruct s4 as [|c1 [|c2 [|c3 [|c4 [|c5 s]]]]]; cbn [toLowerCase] in L;
      try discriminate.
    injection L as J S O N.
    cbn [match_here]. rewrite !andb_true_iff, !atom_matches_Lit.
    rewrite J, S, O, N. repeat split; reflexivity.
Qed.

Lemma match_star_unfold more t :
  match_here true ((AnyChar, true) :: more) t
  = match_here true more t
    || match t with
       | String _ t' => match_here true ((AnyChar, true) :: more) t'
       | EmptyString => false
       end.
Proof. destruct t; reflexivity. Qed.

Lemma match_star_iff more t :
  match_here true ((AnyChar, true) :: more) t = true
  <-> exists mid s, t = mid ++ s /\ match_here true more s = true.
Proof.
  induction t as [|c t IH]; rewrite match_star_unfold, orb_true_iff.
  - split.
    + intros [H|H]; [|discriminate]. exists "", "". split; [reflexivity|exact H].
    + intros (mid & s & E & H). left.
      destruct mid; [|discriminate]. cbn in E. subst s. exact H.
  - rewrite IH. split.
    + intros [H|(mid & s & -> & H)].
      * exists "", (String c t). split; [reflexivity|exact H].
      * exists (String c mid), s. split; [reflexivity|exact H].
    + intros (mid & s & E & H). destruct mid as [|d mid].
      * left. cbn in E. subst s. exact H.
      * right. cbn in E. injection E as -> ->. exists mid, s.
        split; [reflexivity|exact H].
Qed.

(** What the locator's filter accepts: three characters that are [ntt]
    up to case, then anything, then any one character, then four
    characters that are [json] up to case. *)
Lemma locator_accepts_iff name :
  locator_accepts name = true
  <-> exists p mid c s,
        name = p ++ mid ++ String c s
        /\ toLowerCase p = "ntt" /\ toLowerCase s = "json".
Proof.
  rewrite locator_accepts_eq. split.
  - destruct name as [|c1 [|c2 [|c3 rest]]]; cbn [match_here];
      rewrite ?andb_false_r; try discriminate.
    change ((fix star (text : string) : bool := _) rest)
      with (match_here true ((AnyChar, true) :: pattern_tail) rest).
    rewrite !andb_true_iff, !atom_matches_Lit, match_star_iff.
    intros (N & T1 & T2 & mid & s & -> & H).
    apply match_tail_iff in H. destruct H as (c & s4 & -> & L).
    exists (String c1 (String c2 (String c3 ""))), mid, c, s4.
    repeat split; [|exact L]. cbn [toLowerCase]. rewrite N, T1, T2. reflexivity.
  - intros (p & mid & c & s & -> & P & S).
    destruct p as [|c1 [|c2 [|c3 [|c4 p]]]]; cbn [toLowerCase] in P;
      try discriminate.
    injection P as N T1 T2. cbn [append match_here].
    change ((fix star (text : string) : bool := _) (mid ++ String c s))
      with (match_here true ((AnyChar, true) :: pattern_tail) (mid ++ String c s)).
    rewrite !andb_true_iff, !atom_matches_Lit, match_star_iff.
    repeat split; try assumption.
    exists mid, (String c s). split; [reflexivity|].
    apply match_tail_iff. exists c, s. split; [reflexivity|exact S].
Qed.

Lemma endsWith_dot_json rest :
  endsWith ".json" (toLowerCase rest) = true ->
  exists mid c s, rest = mid ++ String c s /\ toLowerCase s = "json".
Proof.
  induction rest as [|a rest IH]; [discriminate|].
  cbn [toLowerCase endsWith]. rewrite orb_true_iff. intros [E|E].
  - apply String.eqb_eq in E.
    destruct rest as [|b1 [|b2 [|b3 [|b4 [|b5 rest]]]]]; cbn [toLowerCase] in E;
      try discriminate.
    injection E as _ J S O N.
    exists "", a, (String b1 (String b2 (String b3 (String b4 "")))).
    split; [reflexivity|]. cbn [toLowerCase]. rewrite J, S, O, N. reflexivity.
  - destruct (IH E) as (mid & c & s & -> & L).
    exists (String a mid), c, s. split; [reflexivity | exact L].
Qed.

(** Every name of the claimed shape is kept by the filter; the converse is
    what fails. *)
Lemma claimed_shape_accepted name :
  claimed_shape name = true -> locator_accepts name = true.
Proof.
  unfold claimed_shape. rewrite andb_true_iff. intros [P E].
  destruct name as [|c1 [|c2 [|c3 rest]]]; cbn [toLowerCase prefix] in P;
    repeat match type of P with
           | context [Ascii.ascii_dec ?a ?b] =>
               destruct (Ascii.ascii_dec a b) as [?Eq|]
           end;
    try discriminate.
  rename Eq into N, Eq0 into T1, Eq1 into T2.
  cbn [toLowerCase endsWith String.eqb] in E. rewrite <- N, <- T1, <- T2 in E.
  cbn in E.
  destruct (endsWith_dot_json rest E) as (mid & c & s & -> & L).
  apply locator_accepts_iff.
  exists (String c1 (String c2 (String c3 ""))), mid, c, s.
  repeat split; [|exact L]. cbn [toLowerCase]. rewrite <- N, <- T1, <- T2.
  reflexivity.
Qed.

(** C8, the code at a name without a dot.  The backslash of the source
    literal does not reach the shell, so grep receives the pattern
    [^ntt.*.json$], whose last dot matches any character: the filter keeps
    [ntt1json], which does not end in [.json].  With the backslash kept,
    the pattern would reject that name. *)
Theorem locator_accepts_dotless_name :
  locator_command = "ls -1 | grep -i " ++ dq ++ "^ntt.*.json$" ++ dq
  /\ grep_pattern locator_command = "^ntt.*.json$"
  /\ locator_accepts "ntt1json" = true
  /\ claimed_shape "ntt1json" = false
  /\ grep_i "^ntt.*\.json$" "ntt1json" = false.
Proof. repeat split. Qed.

Lemma lower_n_not_space c :
  toLowerCase_char c = "n"%char -> is_space c = false.
Proof.
  destruct c as [[] [] [] [] [] [] [] []]; vm_compute; intros H;
    first [reflexivity | discriminate H].
Qed.

(** An accepted name begins and ends with a character that is not white
    space. *)
Lemma accepted_name_edges name :
  locator_accepts name = true ->
  (exists c rest, name = String c rest /\ is_space c = false)
  /\ (exists body c, name = body ++ String c "" /\ is_space c = false).
Proof.
  intros H. apply locator_accepts_iff in H.
  destruct H as (p & mid & c & s & -> & P & S).
  destruct p as [|c1 [|c2 [|c3 [|c4 p]]]]; cbn [toLowerCase] in P;
    try discriminate.
  destruct s as [|d1 [|d2 [|d3 [|d4 [|d5 s]]]]]; cbn [toLowerCase] in S;
    try discriminate.
  injection P as N _ _. injection S as _ _ _ N'.
  split.
  - exists c1. eexists. split; [reflexivity|]. apply lower_n_not_space, N.
  - exists (String c1 (String c2 (String c3 ""))
            ++ mid ++ String c (String d1 (String d2 (String d3 "")))), d4.
    split; [|apply lower_n_not_space, N'].
    cbn [append]. do 3 f_equal.
    induction mid as [|m mid IH]; cbn [append]; [reflexivity|].
    f_equal. exact IH.
Qed.

Lemma append_assoc (a b c : string) : (a ++ b) ++ c = a ++ (b ++ c).
Proof. induction a as [|x a IH]; cbn; [reflexivity | rewrite IH; reflexivity]. Qed.

Lemma trimEnd_cons a r :
  trimEnd (String a r)
  = match trimEnd r with
    | EmptyString => if is_space a then EmptyString else String a EmptyString
    | String x y => String a (String x y)
    end.
Proof. reflexivity. Qed.

Lemma trimEnd_keeps s c t :
  is_space c = false ->
  trimEnd (s ++ String c t) = s ++ trimEnd (String c t).
Proof.
  intros C.
  assert (N : exists x y, trimEnd (String c t) = String x y).
  { rewrite trimEnd_cons. destruct (trimEnd t); [rewrite C|]; eauto. }
  destruct N as (x & y & N). rewrite N.
  induction s as [|a s IH]; [exact N|].
  cbn [append]. rewrite trimEnd_cons, IH.
  destruct s; reflexivity.
Qed.

Lemma unlines_join lines :
  lines <> [] -> unlines lines = join nl lines ++ nl.
Proof.
  induction lines as [|l [|l2 more] IH]; intros N; [contradiction| |].
  - cbn. induction l; cbn; [reflexivity | f_equal; assumption].
  - cbn [unlines join] in *. rewrite IH by discriminate.
    rewrite !append_assoc. reflexivity.
Qed.

Lemma join_ends_visibly lines :
  lines <> [] -> Forall ends_visibly lines -> ends_visibly (join nl lines).
Proof.
  induction lines as [|l [|l2 more] IH]; intros N F; [contradiction| |].
  - inversion F; assumption.
  - inversion F as [|? ? _ F']; subst.
    destruct (IH ltac:(discriminate) F') as (body & c & E & C).
    exists (l ++ nl ++ body), c. split; [|exact C].
    cbn [join] in *. rewrite E, !append_assoc. reflexivity.
Qed.

Lemma trim_unlines lines :
  lines <> [] ->
  Forall (fun l => locator_accepts l = true) lines ->
  trim (unlines lines) = join nl lines.
Proof.
  intros N F. unfold trim.
  assert (S : trimStart (unlines lines) = unlines lines).
  { destruct lines as [|l more]; [contradiction|].
    inversion F as [|? ? A _]; subst.
    destruct (accepted_name_edges l A) as [(c & rest & -> & C) _].
    cbn [unlines append trimStart]. rewrite C. reflexivity. }
  rewrite S, (unlines_join lines N).
  destruct (join_ends_visibly lines N) as (body & c & -> & C).
  { eapply Forall_impl; [|exact F]. intros l A. apply (accepted_name_edges l A). }
  rewrite append_assoc. cbn [append]. rewrite (trimEnd_keeps body c nl C).
  cbn [trimEnd nl]. 
  replace (is_space nl_char) with true by reflexivity. rewrite C. reflexivity.
Qed.

Lemma split_nl_one s : no_newline s = true -> split_nl s = [s].
Proof.
  induction s as [|c s IH]; [reflexivity|]. cbn [no_newline split_nl].
  intros H. apply andb_true_iff in H. destruct H as [H1 H2].
  apply negb_true_iff in H1. rewrite H1, (IH H2). reflexivity.
Qed.

Lemma split_nl_app s t :
  no_newline s = true -> split_nl (s ++ nl ++ t) = s :: split_nl t.
Proof.
  induction s as [|c s IH]; intros H.
  - reflexivity.
  - cbn [no_newline] in H. apply andb_true_iff in H. destruct H as [H1 H2].
    apply negb_true_iff in H1. cbn [append split_nl]. rewrite H1, (IH H2).
    reflexivity.
Qed.

Lemma split_nl_join lines :
  lines <> [] ->
  Forall (fun l => no_newline l = true) lines ->
  split_nl (join nl lines) = lines.
Proof.
  induction lines as [|l [|l2 more] IH]; intros N F; [contradiction| |].
  - inversion F; subst. cbn [join]. apply split_nl_one. assumption.
  - inversion F as [|? ? Hl F']; subst. cbn [join] in *.
    rewrite (split_nl_app _ _ Hl), (IH ltac:(discriminate) F'). reflexivity.
Qed.

(** What the locator reads back when grep selected at least one name. *)
Lemma files_of_hits entries :
  Forall (fun l => no_newline l = true) entries ->
  filter locator_accepts entries <> [] ->
  split_nl (trim (unlines (filter locator_accepts entries)))
  = filter locator_accepts entries.
Proof.
  intros F N.
  rewrite trim_unlines, split_nl_join; trivial.
  - apply Forall_forall. intros l I. apply filter_In in I.
    rewrite Forall_forall in F. apply F, I.
  - apply Forall_forall. intros l I. apply filter_In in I. apply I.
Qed.

Lemma ls_grep_i_locator entries :
  ls_grep_i (grep_pattern locator_command) entries
  = match filter locator_accepts entries with
    | [] => (Some 1%Z, "")
    | hits => (Some 0%Z, unlines hits)
    end.
Proof. reflexivity. Qed.

Section Locator.
Variable w : World.
Variable entries : list string.
Hypothesis listing : lists_directory w entries.
Hypothesis plain_names : Forall (fun name => no_newline name = true) entries.

Lemma find_no_match tr :
  filter locator_accepts entries = [] ->
  Full.findNttKeypairFile w tr
  = ((tr ++ [ExecSync locator_command])%list,
     Thrown (Error Full.not_found_message)).
Proof.
  intros E. unfold Full.findNttKeypairFile, try_catch.
  rewrite bind_execSync, !(listing tr), !ls_grep_i_locator, E. reflexivity.
Qed.

Lemma find_files tr :
  filter locator_accepts entries <> [] ->
  Full.findNttKeypairFile w tr
  = let files := filter locator_accepts entries in
    ((tr ++ [ExecSync locator_command])%list,
     match files with
     | [name] => Normal name
     | _ => Thrown (Error Full.multiple_message)
     end).
Proof.
  intros N. unfold Full.findNttKeypairFile, try_catch.
  rewrite bind_execSync, !(listing tr), !ls_grep_i_locator.
  pose proof (files_of_hits entries plain_names N) as F.
  assert (A : forall l, In l (filter locator_accepts entries) ->
                        locator_accepts l = true).
  { intros l I. apply filter_In in I. apply I. }
  destruct (filter locator_accepts entries) as [|h1 [|h2 more]];
    [contradiction| |]; cbn [fst snd exited_zero Z.eqb]; rewrite F.
  - destruct (accepted_name_edges h1 (A h1 (or_introl eq_refl)))
      as [(c & rest & -> & _) _].
    reflexivity.
  - reflexivity.
Qed.

Lemma find_needs_one tr tr' name :
  List.length (filter locator_accepts entries) <> 1 ->
  Full.findNttKeypairFile w tr <> (tr', Normal name).
Proof.
  intros L. destruct (filter locator_accepts entries) as [|h1 [|h2 more]] eqn:E.
  - rewrite (find_no_match tr E). discriminate.
  - contradiction L. reflexivity.
  - rewrite find_files by (rewrite E; discriminate). rewrite E. discriminate.
Qed.
End Locator.

Lemma emits_bind_stuck w P {A B} (m : Js A) (k : A -> Js B) :
  emits w P m ->
  (forall tr tr' a, m w tr <> (tr', Normal a)) ->
  emits w P (bind m k).
Proof.
  intros Hm Never tr. destruct (Hm tr) as (evs & E & F).
  unfold bind. pose proof (Never tr) as N.
  destruct (m w tr) as [tr' [a|e|c]]; cbn [fst] in E; subst tr'.
  - contradiction (N (tr ++ evs)%list a). reflexivity.
  - exists evs. split; [reflexivity | assumption].
  - exists evs. split; [reflexivity | assumption].
Qed.

Lemma emits_deploy_without_keypair w entries cfg :
  lists_directory w entries ->
  Forall (fun name => no_newline name = true) entries ->
  List.length (filter locator_accepts entries) <> 1 ->
  emits w no_authorize (Full.deployNTT cfg).
Proof.
  intros L Pn N.
  pose proof (emits_findNttKeypairFile w no_authorize eq_refl) as Ef.
  pose proof (fun tr tr' name => find_needs_one w entries L Pn tr tr' name N) as Never.
  unfold Full.deployNTT, Full.checkPrerequisites, Full.prepareSolanaDeployment.
  cbv zeta.
  unfold console_log, console_error.
  repeat first
    [ apply emits_bind_stuck; [exact Ef | exact Never]
    | apply emits_ret
    | apply emits_process_exit
    | apply emits_emit; reflexivity
    | apply emits_writeFileSync; reflexivity
    | apply emits_process_chdir; reflexivity
    | apply emits_execSync; reflexivity
    | apply emits_bind; [|intros]
    | apply emits_try_catch; [|intros]
    | match goal with
      | |- emits _ _ (if ?b then _ else _) => destruct b
      end ].
Qed.

(** C5.  Let the locator's command list a directory whose entry names
    contain no line feed.  With no entry kept by the filter the locator
    throws the not-found error; with two or more it throws the
    multiple-files error, a different message; with exactly one it returns
    that name.  Whenever the number of kept entries is not one, no run of
    the full script issues an [spl-token authorize] command. *)
Theorem locator_requires_exactly_one w entries :
  lists_directory w entries ->
  Forall (fun name => no_newline name = true) entries ->
  Full.not_found_message <> Full.multiple_message
  /\ (filter locator_accepts entries = [] ->
      forall tr,
        Full.findNttKeypairFile w tr
        = ((tr ++ [ExecSync locator_command])%list,
           Thrown (Error Full.not_found_message)))
  /\ (2 <= List.length (filter locator_accepts entries) ->
      forall tr,
        Full.findNttKeypairFile w tr
        = ((tr ++ [ExecSync locator_command])%list,
           Thrown (Error Full.multiple_message)))
  /\ (forall name,
        filter locator_accepts entries = [name] ->
        forall tr,
          Full.findNttKeypairFile w tr
          = ((tr ++ [ExecSync locator_command])%list, Normal name))
  /\ (List.length (filter locator_accepts entries) <> 1 ->
      forall args,
        forallb no_authorize (fst (run Full.main w args)) = true).
Proof.
  intros L Pn. split; [discriminate|]. split; [|split; [|split]].
  - intros E tr. apply (find_no_match w entries L tr E).
  - intros Two tr. rewrite (find_files w entries L Pn).
    + destruct (filter locator_accepts entries) as [|h1 [|h2 more]];
        cbn in Two; try lia; reflexivity.
    + intros E. rewrite E in Two. cbn in Two. lia.
  - intros name E tr. rewrite (find_files w entries L Pn).
    + rewrite E. reflexivity.
    + rewrite E. discriminate.
  - intros N args. rewrite Full_main_of. apply run_emits.
    + intros [] E; try discriminate; reflexivity.
    + intros cfg _. apply (emits_deploy_without_keypair w entries cfg L Pn N).
Qed.

Lemma locator_requires_exactly_one_witness :
  Full.findNttKeypairFile (directory_world two_keypairs) []
  = ([ExecSync locator_command], Thrown (Error Full.multiple_message))
  /\ forallb no_authorize
       (fst (run Full.main (directory_world two_keypairs)
               (demo_args ++ ["--mode"; "burning"]))) = true.
Proof.
  destruct (locator_requires_exactly_one (directory_world two_keypairs) two_keypairs)
    as (_ & _ & Two & _ & None).
  - intros tr. reflexivity.
  - repeat constructor.
  - split.
    + apply Two. vm_compute. lia.
    + apply None. vm_compute. lia.
Defined.

Example one_keypair_is_authorized :
  commands (fst (run Full.main (directory_world ["nttA.json"; "README.md"])
                   (demo_args ++ ["--mode"; "burning"])))
  = ["which solana"; "which spl-token"; "which anchor"; "which forge";
     "which ntt"; "ntt new demo"; "ntt init Testnet";
     "solana-keygen grind --starts-with ntt:1 --ignore-case";
     locator_command;
     "ntt solana token-authority nttA.json";
     "spl-token authorize TokenkegQfeZyiNwAJbNbGKPFXCWuBvf9Ss623VQ5DA mint ";
     "ntt add-chain Solana --token TokenkegQfeZyiNwAJbNbGKPFXCWuBvf9Ss623VQ5DA --mode burning --latest --payer ./payer.json";
     "ntt add-chain Base --token 0xAAA --mode burning --latest --skip-verify";
     "ntt push --yes --payer ./payer.json";
     "cat deployment.json"].
Proof. reflexivity. Qed.

(* ================================================================== *)
(** * Further properties *)

(* ------------------------------------------------------------------ *)
(** ** Argument parsing *)

Lemma scanArgs_through pre : forall rest cfg w tr,
  reads_through pre = true ->
  exists cfg',
    scanArgs pre cfg w tr = (tr, Normal cfg')
    /\ scanArgs (pre ++ rest) cfg w tr = scanArgs rest cfg' w tr.
Proof.
  induction pre as [| a | a v pre IH] using list_pair_ind;
    intros rest cfg w tr R.
  - exists cfg. split; reflexivity.
  - discriminate.
  - cbn [reads_through] in R. apply andb_true_iff in R. destruct R as [F R].
    cbn [app scanArgs]. unfold is_value_flag, is_valid_mode in F.
    split_on_flag a; try (apply IH; assumption); try discriminate.
    destruct (Mode_of_string v); [apply IH; assumption | discriminate].
Qed.

Lemma run_scan_exit w args tr code :
  scanArgs args empty_config w [] = (tr, Exited code) ->
  run Full.main w args = (tr, 1%Z) /\ run Plain.main w args = (tr, 1%Z).
Proof.
  intros S.
  assert (E : parseArgs args w [] = (tr, Exited code)).
  { rewrite parseArgs_unfold, S. reflexivity. }
  rewrite Full_main_of, Plain_main_of.
  split; apply run_parse_exit with (code := code); exact E.
Qed.

(** X1.  When the scanner reaches [--mode] at a flag position and the next
    token is absent or is neither [burning] nor [locking], both variants
    print the mode error alone (no usage text) and exit with status 1,
    whatever follows; no command is run. *)
Theorem invalid_mode_rejected w pre rest :
  reads_through pre = true ->
  lacks_valid_mode rest = true ->
  run Full.main w (pre ++ "--mode" :: rest) = (invalid_mode_report, 1%Z)
  /\ run Plain.main w (pre ++ "--mode" :: rest) = (invalid_mode_report, 1%Z).
Proof.
  intros R L. apply run_scan_exit with (code := 1%Z).
  destruct (scanArgs_through pre ("--mode" :: rest) empty_config w [] R)
    as (cfg' & _ & ->).
  cbn [scanArgs String.eqb Ascii.eqb Bool.eqb]. cbn.
  destruct rest as [|v rest]; [reflexivity|].
  unfold lacks_valid_mode, is_valid_mode in L.
  destruct (Mode_of_string v); [discriminate | reflexivity].
Qed.

Lemma invalid_mode_rejected_witness :
  run Full.main quiet_world (demo_args ++ "--mode" :: ["Burning"; "-h"])
  = (invalid_mode_report, 1%Z)
  /\ run Plain.main quiet_world (demo_args ++ "--mode" :: ["Burning"; "-h"])
     = (invalid_mode_report, 1%Z).
Proof.
  apply (invalid_mode_rejected quiet_world demo_args ["Burning"; "-h"]);
    reflexivity.
Defined.

(** X2.  When the scanner reaches, at a flag position, a token that is
    none of the six recognised flags, both variants print the
    unknown-option line naming that token, then the usage text, and exit
    with status 1; no command is run. *)
Theorem unknown_option_rejected w pre a rest :
  reads_through pre = true ->
  is_unknown_option a = true ->
  run Full.main w (pre ++ a :: rest) = (unknown_option_report a, 1%Z)
  /\ run Plain.main w (pre ++ a :: rest) = (unknown_option_report a, 1%Z).
Proof.
  intros R U. apply run_scan_exit with (code := 1%Z).
  destruct (scanArgs_through pre (a :: rest) empty_config w [] R)
    as (cfg' & _ & ->).
  unfold is_unknown_option, is_value_flag, is_help in U.
  apply negb_true_iff in U.
  cbn [scanArgs].
  repeat match goal with
  | |- context [String.eqb a ?s] =>
      destruct (String.eqb_spec a s) as [->|?]; [discriminate U|]
  end.
  reflexivity.
Qed.

Lemma unknown_option_rejected_witness :
  run Full.main quiet_world (["--mode"; "locking"] ++ "--project_name" :: ["demo"])
  = (unknown_option_report "--project_name", 1%Z)
  /\ run Plain.main quiet_world
       (["--mode"; "locking"] ++ "--project_name" :: ["demo"])
     = (unknown_option_report "--project_name", 1%Z).
Proof.
  apply (unknown_option_rejected quiet_world ["--mode"; "locking"]
           "--project_name" ["demo"]); reflexivity.
Defined.

(** X3.  When the scan completes with all four required fields present
    and the payer path does not exist, both variants print the payer
    error naming the path and exit with status 1; no command is run. *)
Theorem missing_payer_file_rejected w args cfg path :
  scanArgs args empty_config w [] = ([], Normal cfg) ->
  first_missing cfg = None ->
  solanaPayer cfg = Some path ->
  fs_exists w path = false ->
  run Full.main w args = (payer_report path, 1%Z)
  /\ run Plain.main w args = (payer_report path, 1%Z).
Proof.
  intros S M P F.
  assert (E : parseArgs args w [] = (payer_report path, Exited 1%Z)).
  { rewrite parseArgs_unfold, S, M, P, F. reflexivity. }
  rewrite Full_main_of, Plain_main_of.
  split; apply run_parse_exit with (code := 1%Z); exact E.
Qed.

Lemma missing_payer_file_rejected_witness :
  run Full.main empty_disk_world demo_args = (payer_report "./payer.json", 1%Z)
  /\ run Plain.main empty_disk_world demo_args
     = (payer_report "./payer.json", 1%Z).
Proof.
  apply (missing_payer_file_rejected empty_disk_world demo_args demo_config
           "./payer.json"); reflexivity.
Defined.

(** X4.  Scanning composes: when the scanner reads all of [pre] as
    flag-value pairs, scanning [pre ++ rest] is scanning [pre], which
    prints nothing, and then scanning [rest] from the configuration it
    built. *)
Theorem scan_composes w pre rest cfg tr :
  reads_through pre = true ->
  scanArgs (pre ++ rest) cfg w tr
  = (config <- scanArgs pre cfg ;; scanArgs rest config) w tr.
Proof.
  intros R. destruct (scanArgs_through pre rest cfg w tr R) as (cfg' & S & ->).
  unfold bind. rewrite S. reflexivity.
Qed.

Lemma scan_composes_witness :
  scanArgs (["--mode"; "locking"] ++ ["--mode"; "burning"]) empty_config
    quiet_world []
  = (config <- scanArgs ["--mode"; "locking"] empty_config ;;
     scanArgs ["--mode"; "burning"] config) quiet_world [].
Proof.
  apply (scan_composes quiet_world ["--mode"; "locking"] ["--mode"; "burning"]).
  reflexivity.
Defined.

(** X5.  The last occurrence wins, and the flag a missing-parameter report
    names is the flag that supplies the parameter: for each required
    parameter, after any readable prefix, the pair of its dash-cased flag
    and a value stores that value in that parameter's field, whatever the
    prefix had stored there. *)
Theorem last_occurrence_wins w pre param v cfg tr :
  reads_through pre = true ->
  In param requiredParams ->
  exists cfg',
    scanArgs (pre ++ ["--" ++ dash_case param; v]) cfg w tr = (tr, Normal cfg')
    /\ config_get cfg' param = Some v.
Proof.
  intros R I.
  destruct (scanArgs_through pre ["--" ++ dash_case param; v] cfg w tr R)
    as (cfg1 & _ & ->).
  cbn in I. destruct I as [<-|[<-|[<-|[<-|[]]]]]; eexists; split; reflexivity.
Qed.

Lemma last_occurrence_wins_witness :
  exists cfg',
    scanArgs (["--base-token"; "0x1"] ++ ["--" ++ dash_case "baseToken"; "0x2"])
      empty_config quiet_world []
    = ([], Normal cfg')
    /\ config_get cfg' "baseToken" = Some "0x2".
Proof.
  apply (last_occurrence_wins quiet_world ["--base-token"; "0x1"] "baseToken"
           "0x2" empty_config []).
  - reflexivity.
  - cbn. tauto.
Defined.

(** X6.  A value flag that is the last token takes [undefined] as its
    value, erasing what an earlier occurrence stored: after any readable
    prefix, both variants end on a missing-parameter report with status 1
    and run no command. *)
Theorem trailing_flag_erases w pre flag :
  reads_through pre = true ->
  is_value_flag flag = true ->
  exists param,
    In param requiredParams
    /\ run Full.main w (pre ++ [flag]) = (missing_report param, 1%Z)
    /\ run Plain.main w (pre ++ [flag]) = (missing_report param, 1%Z).
Proof.
  intros R V.
  destruct (scanArgs_through pre [flag] empty_config w [] R) as (cfg1 & _ & S).
  assert (F : exists cfg' q,
             scanArgs (pre ++ [flag]) empty_config w [] = ([], Normal cfg')
             /\ In q requiredParams /\ config_get cfg' q = None).
  { rewrite S. unfold is_value_flag in V. cbn [scanArgs].
    repeat match goal with
    | |- context [String.eqb flag ?s] =>
        destruct (String.eqb_spec flag s) as [->|?]
    end; try discriminate V.
    - exists (set_projectName None cfg1), "projectName". cbn. tauto.
    - exists (set_baseToken None cfg1), "baseToken". cbn. tauto.
    - exists (set_solanaToken None cfg1), "solanaToken". cbn. tauto.
    - exists (set_solanaPayer None cfg1), "solanaPayer". cbn. tauto. }
  destruct F as (cfg' & q & S' & Iq & G).
  destruct (first_missing_of_falsy cfg' q Iq) as [p M]; [rewrite G; reflexivity|].
  exists p. split.
  - unfold first_missing in M. apply find_some in M. apply M.
  - exact (parse_reports_missing w (pre ++ [flag]) cfg' p S' M).
Qed.

Lemma trailing_flag_erases_witness :
  exists param,
    In param requiredParams
    /\ run Full.main quiet_world (demo_args ++ ["--solana-payer"])
       = (missing_report param, 1%Z)
    /\ run Plain.main quiet_world (demo_args ++ ["--solana-payer"])
       = (missing_report param, 1%Z).
Proof.
  apply (trailing_flag_erases quiet_world demo_args "--solana-payer");
    reflexivity.
Defined.

Lemma truthy_nonempty v :
  truthy v = true -> exists s, v = Some s /\ s <> "".
Proof.
  destruct v as [[|c s]|]; try discriminate.
  intros _. eexists. split; [reflexivity | discriminate].
Qed.

(** X7.  What [parseArgs] returns is validated: it has printed nothing, the
    four required fields are non-empty strings, and the payer path exists.
    (The mode, when present, is one of the two mode names by its type.) *)
Theorem parsed_config_is_validated w args tr cfg :
  parseArgs args w [] = (tr, Normal cfg) ->
  tr = []
  /\ (exists name, projectName cfg = Some name /\ name <> "")
  /\ (exists token, baseToken cfg = Some token /\ token <> "")
  /\ (exists token, solanaToken cfg = Some token /\ token <> "")
  /\ (exists path,
        solanaPayer cfg = Some path /\ path <> "" /\ fs_exists w path = true).
Proof.
  intros E. pose proof (parseArgs_normal_nil w args tr cfg E) as ->.
  split; [reflexivity|].
  rewrite parseArgs_unfold in E.
  destruct (scanArgs args empty_config w []) as [tr1 [c|e|code]];
    try discriminate E.
  destruct (first_missing c) as [p|] eqn:M; [discriminate E|].
  destruct (solanaPayer c) as [path|] eqn:P;
    [destruct (fs_exists w path) eqn:F|]; try discriminate E.
  injection E as -> ->.
  unfold first_missing in M.
  pose proof (find_none _ _ M) as N. cbn beta in N.
  assert (T : forall q, In q requiredParams -> truthy (config_get cfg q) = true).
  { intros q I. apply negb_false_iff, N, I. }
  repeat split.
  - apply (truthy_nonempty (projectName cfg)), (T "projectName"). cbn. tauto.
  - apply (truthy_nonempty (baseToken cfg)), (T "baseToken"). cbn. tauto.
  - apply (truthy_nonempty (solanaToken cfg)), (T "solanaToken"). cbn. tauto.
  - exists path. split; [exact P|]. split; [|exact F].
    destruct (truthy_nonempty (solanaPayer cfg)) as (s & Es & Ns).
    { apply (T "solanaPayer"). cbn. tauto. }
    congruence.
Qed.

Lemma parsed_config_is_validated_witness :
  (exists name, projectName demo_config = Some name /\ name <> "")
  /\ (exists path,
        solanaPayer demo_config = Some path /\ path <> ""
        /\ fs_exists quiet_world path = true).
Proof.
  destruct (parsed_config_is_validated quiet_world demo_args [] demo_config
              eq_refl) as (_ & N & _ & _ & P).
  split; assumption.
Defined.

(* ------------------------------------------------------------------ *)
(** ** The main block *)

Section NeverExits.
Variable w : World.

Lemma never_exits_ret {A} (a : A) : never_exits w (ret a).
Proof. intros tr tr' code. discriminate. Qed.

Lemma never_exits_throw {A} e : never_exits w (@throw A e).
Proof. intros tr tr' code. discriminate. Qed.

Lemma never_exits_emit e : never_exits w (emit e).
Proof. intros tr tr' code. discriminate. Qed.

Lemma never_exits_execSync cmd : never_exits w (execSync cmd).
Proof.
  intros tr tr' code. rewrite execSync_eq.
  destruct (exited_zero _); discriminate.
Qed.

Lemma never_exits_writeFileSync path data :
  never_exits w (writeFileSync path data).
Proof.
  intros tr tr' code. unfold writeFileSync.
  destruct (write_fails w tr path); discriminate.
Qed.

Lemma never_exits_process_chdir dir : never_exits w (process_chdir dir).
Proof.
  intros tr tr' code. unfold process_chdir.
  destruct (chdir_fails w tr dir); discriminate.
Qed.

Lemma never_exits_bind {A B} (m : Js A) (k : A -> Js B) :
  never_exits w m -> (forall a, never_exits w (k a)) -> never_exits w (bind m k).
Proof.
  intros Hm Hk tr tr' code. unfold bind. pose proof (Hm tr) as N.
  destruct (m w tr) as [tr1 [a|e|c]].
  - apply Hk.
  - discriminate.
  - contradiction (N tr1 c). reflexivity.
Qed.

Lemma never_exits_try_catch {A} (m : Js A) (h : js_error -> Js A) :
  never_exits w m -> (forall e, never_exits w (h e)) ->
  never_exits w (try_catch m h).
Proof.
  intros Hm Hh tr tr' code. unfold try_catch. pose proof (Hm tr) as N.
  destruct (m w tr) as [tr1 [a|e|c]].
  - discriminate.
  - apply Hh.
  - contradiction (N tr1 c). reflexivity.
Qed.
End NeverExits.

Ltac never_exits_auto :=
  unfold console_log, console_error;
  repeat first
    [ assumption
    | apply never_exits_ret
    | apply never_exits_throw
    | apply never_exits_emit
    | apply never_exits_execSync
    | apply never_exits_writeFileSync
    | apply never_exits_process_chdir
    | apply never_exits_bind; [|intros]
    | apply never_exits_try_catch; [|intros]
    | match goal with
      | |- never_exits _ (if ?b then _ else _) => destruct b
      | |- never_exits _ (match ?x with _ => _ end) => destruct x
      end ].

Lemma never_exits_findNttKeypairFile w : never_exits w Full.findNttKeypairFile.
Proof. unfold Full.findNttKeypairFile. never_exits_auto. Qed.

Lemma never_exits_Plain_deployNTT w cfg : never_exits w (Plain.deployNTT cfg).
Proof. unfold Plain.deployNTT. cbv zeta. never_exits_auto. Qed.

Lemma never_exits_prepare w cfg :
  never_exits w (Full.prepareSolanaDeployment cfg).
Proof.
  pose proof (never_exits_findNttKeypairFile w).
  unfold Full.prepareSolanaDeployment. cbv zeta. never_exits_auto.
Qed.

(** X8.  The [try]/[catch] around the main block never fires: in both
    variants, from any history, the whole script behaves as [parseArgs]
    followed by [deployNTT] with its [.catch(console.error)]; the handler
    that prints [Deployment failed:] and exits with status 1 is dead. *)
Theorem outer_catch_is_dead w args tr :
  Full.main args w tr
  = (config <- parseArgs args ;;
     try_catch (Full.deployNTT config) (fun e => console_error [Obj e])) w tr
  /\ Plain.main args w tr
     = (config <- parseArgs args ;;
        try_catch (Plain.deployNTT config) (fun e => console_error [Obj e])) w tr.
Proof.
  assert (G : forall deploy,
             main_of deploy args w tr
             = (config <- parseArgs args ;;
                try_catch (deploy config) (fun e => console_error [Obj e])) w tr).
  { intros deploy. unfold main_of. unfold try_catch at 1.
    pose proof (parseArgs_post w args tr) as P. unfold parse_post in P.
    unfold bind at 1 3.
    destruct (parseArgs args w tr) as [tr1 [cfg|e|code]]; cbn [fst snd] in P.
    - unfold try_catch.
      destruct (deploy cfg w tr1) as [tr2 [u|e|code]]; reflexivity.
    - contradiction.
    - reflexivity. }
  rewrite Full_main_of, Plain_main_of. split; apply G.
Qed.

(** X9.  Exit statuses.  A run of either variant ends with status 0 or 1.
    The variant of src/deploy-ntt.ts ends with 0 exactly when [parseArgs]
    returns a configuration; the full script ends with 0 exactly when
    [parseArgs] returns a configuration and all five probes succeed.  What
    happens to the deployment commands has no influence on the status. *)
Theorem exit_status_characterised w args :
  (snd (run Plain.main w args) = 0%Z
   <-> exists cfg, parseArgs args w [] = ([], Normal cfg))
  /\ (snd (run Full.main w args) = 0%Z
      <-> (exists cfg, parseArgs args w [] = ([], Normal cfg))
          /\ forall k, k < 5 -> probe_status w k = Some 0%Z)
  /\ (snd (run Plain.main w args) = 0%Z \/ snd (run Plain.main w args) = 1%Z)
  /\ (snd (run Full.main w args) = 0%Z \/ snd (run Full.main w args) = 1%Z).
Proof.
  rewrite Full_main_of, Plain_main_of.
  pose proof (parseArgs_post w args []) as P. unfold parse_post in P.
  destruct (parseArgs args w []) as [tr [cfg|e|code]] eqn:E; cbn [fst snd] in P.
  - destruct P as (-> & _).
    rewrite !(run_parse_ok _ w args cfg E).
    assert (Pl : snd (match Plain.deployNTT cfg w [] with
                      | (tr, Normal _) => (tr, 0%Z)
                      | (tr, Thrown e) => ((tr ++ [ConsoleError [Obj e]])%list, 0%Z)
                      | (tr, Exited code) => (tr, code)
                      end) = 0%Z).
    { pose proof (never_exits_Plain_deployNTT w cfg []) as N.
      destruct (Plain.deployNTT cfg w []) as [tr [u|e|code]]; try reflexivity.
      contradiction (N tr code). reflexivity. }
    rewrite Pl.
    assert (Fu : snd (match Full.deployNTT cfg w [] with
                      | (tr, Normal _) => (tr, 0%Z)
                      | (tr, Thrown e) => ((tr ++ [ConsoleError [Obj e]])%list, 0%Z)
                      | (tr, Exited code) => (tr, code)
                      end) = 0%Z
                 <-> forall k, k < 5 -> probe_status w k = Some 0%Z).
    { unfold Full.deployNTT. cbv zeta.
      destruct (probe_cases w) as [Pass | (k & K & Before & Fail)].
      - rewrite (bind_of_normal _ _ _ _ _ _ (checkPrerequisites_pass w Pass)).
        split; [intros _; exact Pass|]. intros _.
        match goal with
        | |- context [match ?m w ?t with _ => _ end] =>
            assert (N : never_exits w m)
        end.
        { pose proof (never_exits_prepare w cfg). never_exits_auto. }
        specialize (N (map ExecSync Full.probes)).
        match goal with
        | |- context [match ?x with _ => _ end] =>
            destruct x as [tr [u|e|code]]
        end; try reflexivity.
        contradiction (N tr code). reflexivity.
      - rewrite (bind_of_exited _ _ _ _ _ _
                   (checkPrerequisites_fail w k K Before Fail)).
        cbn [snd]. split; [discriminate|].
        intros Pass. contradiction Fail. apply Pass, K. }
    split; [split; [eauto | reflexivity]|].
    split.
    + rewrite Fu. split; [intros Pass; split; [eauto | exact Pass] | tauto].
    + split; [left; reflexivity|].
      destruct (probe_cases w) as [Pass | (k & K & Before & Fail)].
      * left. apply Fu, Pass.
      * right. unfold Full.deployNTT. cbv zeta.
        rewrite (bind_of_exited _ _ _ _ _ _
                   (checkPrerequisites_fail w k K Before Fail)).
        reflexivity.
  - contradiction.
  - destruct P as (-> & _).
    destruct (run_parse_exit Full.deployNTT w args tr 1%Z E) as [-> _].
    destruct (run_parse_exit Plain.deployNTT w args tr 1%Z E) as [-> _].
    cbn [snd].
    split; [split; [discriminate | intros [cfg C]; discriminate C]|].
    split; [split; [discriminate | intros [[cfg C] _]; discriminate C]|].
    split; right; reflexivity.
Qed.

(* ------------------------------------------------------------------ *)
(** ** Deployment sequences *)

Lemma emits_deploy_unprepared w cfg :
  Full.is_burning (mode cfg) = false ->
  emits w no_preparation (Full.deployNTT cfg).
Proof.
  intros M.
  unfold Full.deployNTT, Full.checkPrerequisites, Full.prepareSolanaDeployment.
  rewrite M. cbv zeta. emits_auto.
Qed.

(** X10.  In locking mode the full script never issues a command of the
    preparation step, in any world; when everything asked of the outside
    world succeeds (every command, the change of directory, the write) it
    completes, having run the five probes, [ntt new], [ntt init Testnet],
    the two [add-chain] commands with [--mode locking], the push and the
    read-back. *)
Theorem locking_mode_run w cfg :
  mode cfg = Some locking ->
  forallb no_preparation (fst (Full.deployNTT cfg w [])) = true
  /\ (all_succeed w ->
      exists tr,
        Full.deployNTT cfg w [] = (tr, Normal tt)
        /\ commands tr
           = ["which solana"; "which spl-token"; "which anchor";
              "which forge"; "which ntt";
              "ntt new " ++ interp (projectName cfg);
              "ntt init Testnet";
              "ntt add-chain Solana --token " ++ interp (solanaToken cfg)
              ++ " --mode locking --latest --payer "
              ++ interp (solanaPayer cfg);
              "ntt add-chain Base --token " ++ interp (baseToken cfg)
              ++ " --mode locking --latest --skip-verify";
              "ntt push --yes --payer " ++ interp (solanaPayer cfg);
              "cat deployment.json"]).
Proof.
  intros M. split.
  - destruct (emits_deploy_unprepared w cfg) with (tr := @nil event)
      as (evs & E & F).
    + rewrite M. reflexivity.
    + rewrite E. exact F.
  - intros H. destruct (Full_deploy_unprepared w cfg H) as (tr & D & C & _).
    + rewrite M. reflexivity.
    + exists tr. split; [exact D|]. rewrite C. unfold chain_sequence.
      rewrite M. reflexivity.
Qed.

Lemma locking_mode_run_witness :
  forallb no_preparation
    (fst (Full.deployNTT (demo_config_in locking) quiet_world [])) = true
  /\ exists tr,
       Full.deployNTT (demo_config_in locking) quiet_world [] = (tr, Normal tt)
       /\ commands tr
          = ["which solana"; "which spl-token"; "which anchor"; "which forge";
             "which ntt"; "ntt new demo"; "ntt init Testnet";
             "ntt add-chain Solana --token TokenkegQfeZyiNwAJbNbGKPFXCWuBvf9Ss623VQ5DA --mode locking --latest --payer ./payer.json";
             "ntt add-chain Base --token 0xAAA --mode locking --latest --skip-verify";
             "ntt push --yes --payer ./payer.json";
             "cat deployment.json"].
Proof.
  destruct (locking_mode_run quiet_world (demo_config_in locking) eq_refl)
    as [N S].
  split; [exact N|]. apply S. split; [|split]; intros tr x; reflexivity.
Defined.

(** X11.  The burning-mode path.  Let everything asked of the outside
    world succeed (every command, the change of directory, the write), the
    locator's listing keep exactly one entry [name], and the
    token-authority command print [pda], both ASCII text.  Then in burning
    mode the full script completes, and its commands are the five probes
    followed by: [ntt new], [ntt init Testnet], the key generation, the
    listing, [ntt solana token-authority name], [spl-token authorize] with
    the Solana token and with [pda] trimmed and shortened by its last four
    characters, the two [add-chain] commands with [--mode burning], the
    push and the read-back. *)
Theorem burning_mode_run w cfg entries name pda :
  all_succeed w ->
  lists_directory w entries ->
  Forall (fun entry => no_newline entry = true) entries ->
  filter locator_accepts entries = [name] ->
  is_ascii name = true ->
  (forall tr, snd (shell w tr ("ntt solana token-authority " ++ name)) = pda) ->
  is_ascii pda = true ->
  mode cfg = Some burning ->
  exists tr,
    Full.deployNTT cfg w [] = (tr, Normal tt)
    /\ commands tr
       = (["which solana"; "which spl-token"; "which anchor"; "which forge";
           "which ntt"]
          ++ burning_sequence cfg name (slice_0_minus 4 (trim pda)))%list
    /\ In (ConsoleLog [Str "Program keypair file:"; Str name]) tr.
Proof.
  intros H L Pn One _ Out _ M.
  assert (Find : forall tr,
             Full.findNttKeypairFile w tr
             = ((tr ++ [ExecSync locator_command])%list, Normal name)).
  { intros tr. rewrite (find_files w entries L Pn tr); rewrite One;
      [reflexivity | discriminate]. }
  unfold Full.deployNTT. cbv zeta.
  rewrite (bind_of_normal _ _ _ _ _ _
             (checkPrerequisites_pass w (all_succeed_probes w H))).
  unfold Full.prepareSolanaDeployment. rewrite M. cbv zeta.
  cbn [map Full.probes Full.is_burning mode_or_default].
  repeat first [step_quiet | step_ok H].
  match goal with
  | |- context [bind (bind ?m ?k1) ?k2 w ?t] =>
      change (bind (bind m k1) k2 w t)
        with (match bind m k1 w t with
              | (tr', Normal a) => k2 a w tr'
              | (tr', Thrown e) => (tr', Thrown e)
              | (tr', Exited c) => (tr', Exited c)
              end)
  end.
  repeat first [step_quiet | step_ok H].
  rewrite (bind_of_normal _ _ _ _ _ _ (Find _)). cbn [app].
  repeat first [step_quiet | step_ok H].
  change (token_authority_command name)
    with ("ntt solana token-authority " ++ name).
  rewrite Out.
  repeat first [step_quiet | step_ok H].
  unfold ret.
  repeat first [step_quiet | step_ok H].
  unfold console_log, emit. cbn [app].
  eexists. split; [reflexivity|]. split; [reflexivity|].
  cbn. tauto.
Qed.

Lemma burning_mode_run_witness :
  exists tr,
    Full.deployNTT (demo_config_in burning) keypair_world [] = (tr, Normal tt)
    /\ commands tr
       = ["which solana"; "which spl-token"; "which anchor"; "which forge";
          "which ntt"; "ntt new demo"; "ntt init Testnet";
          "solana-keygen grind --starts-with ntt:1 --ignore-case";
          locator_command;
          "ntt solana token-authority nttKey.json";
          "spl-token authorize TokenkegQfeZyiNwAJbNbGKPFXCWuBvf9Ss623VQ5DA mint Authority";
          "ntt add-chain Solana --token TokenkegQfeZyiNwAJbNbGKPFXCWuBvf9Ss623VQ5DA --mode burning --latest --payer ./payer.json";
          "ntt add-chain Base --token 0xAAA --mode burning --latest --skip-verify";
          "ntt push --yes --payer ./payer.json";
          "cat deployment.json"]
    /\ In (ConsoleLog [Str "Program keypair file:"; Str "nttKey.json"]) tr.
Proof.
  apply (burning_mode_run keypair_world (demo_config_in burning)
           ["nttKey.json"; "README.md"] "nttKey.json" ("Authority (1)" ++ nl)).
  - split; [|split]; [|intros tr x; reflexivity..].
    intros tr cmd. unfold keypair_world. cbn [shell].
    destruct (cmd =? locator_command); [reflexivity|].
    destruct (prefix "ntt solana token-authority " cmd); reflexivity.
  - intros tr. reflexivity.
  - repeat constructor.
  - reflexivity.
  - reflexivity.
  - intros tr. reflexivity.
  - reflexivity.
  - reflexivity.
Defined.

Lemma chain_sequence_eq cfg :
  chain_sequence cfg
  = [new_command (interp (projectName cfg));
     init_command;
     add_chain_Solana_command (interp (solanaToken cfg))
       (mode_or_default (mode cfg)) (interp (solanaPayer cfg));
     add_chain_Base_command (interp (baseToken cfg))
       (mode_or_default (mode cfg));
     push_command (interp (solanaPayer cfg));
     "cat deployment.json"].
Proof. unfold chain_sequence. rewrite <- mode_word_eq. reflexivity. Qed.

Lemma emits_Plain_deployNTT w P cfg :
  (forall e, is_console e = true -> P e = true) ->
  (forall e, leaves_files e = false -> P e = true) ->
  Forall (fun cmd => P (ExecSync cmd) = true) (chain_sequence cfg) ->
  emits w P (Plain.deployNTT cfg).
Proof.
  intros Pc Pf Ps. rewrite chain_sequence_eq in Ps.
  repeat match goal with
  | H : Forall _ (_ :: _) |- _ => inversion H; subst; clear H
  end.
  unfold Plain.deployNTT. cbv zeta.
  unfold console_log, console_error.
  repeat first
    [ apply emits_bind; [|intros]
    | apply emits_execSync; assumption
    | apply emits_writeFileSync; apply Pf; reflexivity
    | apply emits_process_chdir; apply Pf; reflexivity
    | apply emits_emit; first [apply Pc; reflexivity | apply Pf; reflexivity] ].
Qed.

(** X12.  The variant of src/deploy-ntt.ts never probes for a tool and
    never issues a command of the preparation step, whatever the
    arguments and the world: also with [--mode burning] no keypair is
    generated and the mint authority is never reassigned. *)
Theorem plain_never_prepares w args :
  forallb no_probe (fst (run Plain.main w args)) = true
  /\ forallb no_preparation (fst (run Plain.main w args)) = true.
Proof.
  rewrite Plain_main_of. split; apply run_emits.
  - intros [] E; try discriminate; reflexivity.
  - intros cfg _. apply emits_Plain_deployNTT.
    + intros [] E; try discriminate; reflexivity.
    + intros [] E; try discriminate; reflexivity.
    + repeat constructor.
  - intros [] E; try discriminate; reflexivity.
  - intros cfg _. apply emits_Plain_deployNTT.
    + intros [] E; try discriminate; reflexivity.
    + intros [] E; try discriminate; reflexivity.
    + repeat constructor.
Qed.

Ltac stopped_at k :=
  exists k; split; [lia|]; split; [reflexivity|];
  cbn [snd plain_outcome]; repeat split; try assumption; try lia.

(** X13.  The variant of src/deploy-ntt.ts issues its commands in one fixed
    order and stops at the first failure: in every world the commands of
    a deployment are the first [k] of [ntt new], [ntt init Testnet],
    [ntt add-chain Solana], [ntt add-chain Base], [ntt push], [cat
    deployment.json], spelled out in [chain_sequence], for some [k] from 1
    to 6.  The deployment completes only after all six; otherwise it
    throws the error of the [k]-th command, which did not exit with
    status 0 (its status is another number, or none), or the error of the
    change of directory after the first command, or the error of the
    write of overrides.json after the second.  It never calls
    [process.exit] and throws no error of its own. *)
Theorem plain_commands_in_order w cfg :
  exists k,
    1 <= k <= 6
    /\ commands (fst (Plain.deployNTT cfg w [])) = firstn k (chain_sequence cfg)
    /\ plain_outcome cfg k (snd (Plain.deployNTT cfg w [])).
Proof.
  unfold plain_outcome. rewrite chain_sequence_eq.
  unfold Plain.deployNTT. cbv zeta.
  step_quiet. step_exec; [|stopped_at 1].
  step_fs; [stopped_at 1|].
  step_quiet. step_exec; [|stopped_at 2].
  step_fs; [stopped_at 2|].
  step_quiet. step_exec; [|stopped_at 3].
  step_quiet. step_exec; [|stopped_at 4].
  step_quiet. step_exec; [|stopped_at 5].
  step_quiet. step_exec; [|stopped_at 6].
  stopped_at 6.
Qed.

(* ------------------------------------------------------------------ *)
(** ** Failure *)

Section FailsFast.
Variable w : World.








End FailsFast.






(* ------------------------------------------------------------------ *)
(** ** The locator and the authority address *)

Lemma split_nl_nonempty s : exists piece more, split_nl s = piece :: more.
Proof.
  induction s as [|c s (p & more & IH)]; cbn [split_nl]; [eauto|].
  destruct (Ascii.eqb c nl_char); [eauto|]. rewrite IH. eauto.
Qed.

Lemma split_nl_newline s :
  no_newline s = false -> 2 <= List.length (split_nl s).
Proof.
  induction s as [|c s IH]; [discriminate|].
  cbn [no_newline split_nl]. destruct (Ascii.eqb c nl_char); cbn [negb andb].
  - intros _. destruct (split_nl_nonempty s) as (p & more & ->). cbn. lia.
  - intros H. specialize (IH H).
    destruct (split_nl s) as [|p more]; cbn in *; lia.
Qed.

(** X15.  The locator by cases on what the listing answered, for output
    that is ASCII text.  Exit status 1 is the not-found error whatever
    was printed; any other failure (another non-zero status, or no exit
    status at all) is passed on as the child-process error itself; with
    status 0, output that is empty after trimming is the not-found error,
    output of one line is returned trimmed, and output of several lines is
    the multiple-files error, which the locator's own [catch] passes on
    unchanged.  In every case the listing is the only event. *)
Theorem locator_by_answer w tr :
  is_ascii (snd (shell w tr locator_command)) = true ->
  Full.findNttKeypairFile w tr
  = ((tr ++ [ExecSync locator_command])%list,
     locator_result (fst (shell w tr locator_command))
                    (snd (shell w tr locator_command))).
Proof.
  intros _.
  unfold Full.findNttKeypairFile, try_catch, locator_result.
  rewrite bind_execSync.
  destruct (shell w tr locator_command) as [status out]. cbn [fst snd].
  destruct (exited_zero_spec status) as [->|N0].
  - cbn [exited_one Z.eqb negb]. destruct (no_newline (trim out)) eqn:L.
    + rewrite (split_nl_one _ L). cbn [List.length Nat.eqb orb andb hd_error].
      destruct (trim out =? "") eqn:E; reflexivity.
    + pose proof (split_nl_newline _ L) as Two.
      assert (Ne : (trim out =? "") = false).
      { destruct (trim out); [discriminate L | reflexivity]. }
      rewrite Ne.
      destruct (split_nl (trim out)) as [|f1 [|f2 more]]; cbn in Two; try lia.
      reflexivity.
  - cbn [negb error_status].
    destruct status as [[|[p|p|]|p]|]; reflexivity.
Qed.

Lemma locator_by_answer_witness :
  Full.findNttKeypairFile keypair_world []
  = ([ExecSync locator_command], Normal "nttKey.json").
Proof. exact (locator_by_answer keypair_world [] eq_refl). Defined.

Lemma substring_0_length_app a b :
  substring 0 (String.length a) (a ++ b) = a.
Proof.
  induction a as [|c a IH]; cbn.
  - destruct b; reflexivity.
  - rewrite IH. reflexivity.
Qed.

Lemma length_append a b :
  String.length (a ++ b) = String.length a + String.length b.
Proof. induction a as [|c a IH]; cbn; [reflexivity | rewrite IH; reflexivity]. Qed.

Lemma slice_0_minus_app a b :
  slice_0_minus (String.length b) (a ++ b) = a.
Proof.
  unfold slice_0_minus. rewrite length_append.
  replace (String.length a + String.length b - String.length b)
    with (String.length a) by lia.
  apply substring_0_length_app.
Qed.

Lemma substring_0_0 s : substring 0 0 s = "".
Proof. destruct s; reflexivity. Qed.

Lemma trimEnd_spaces t : all_space t = true -> trimEnd t = "".
Proof.
  induction t as [|c t IH]; [reflexivity|]. cbn [all_space].
  intros H. apply andb_true_iff in H. destruct H as [C T].
  rewrite trimEnd_cons, (IH T), C. reflexivity.
Qed.

Lemma trim_padded lead x trail :
  all_space lead = true -> all_space trail = true ->
  starts_visibly x -> ends_visibly x ->
  trim (lead ++ x ++ trail) = x.
Proof.
  intros Hl Ht Sx Ex. unfold trim.
  assert (S : trimStart (lead ++ x ++ trail) = x ++ trail).
  { induction lead as [|c lead IH].
    - destruct Sx as (c & rest & -> & C). cbn. rewrite C. reflexivity.
    - cbn [all_space] in Hl. apply andb_true_iff in Hl. destruct Hl as [C Hl].
      cbn [append trimStart]. rewrite C. apply IH, Hl. }
  rewrite S. destruct Ex as (body & c & -> & C).
  rewrite append_assoc. cbn [append].
  rewrite (trimEnd_keeps body c trail C), trimEnd_cons, (trimEnd_spaces _ Ht), C.
  reflexivity.
Qed.

(** X16.  The authority address handed to [spl-token authorize], for
    output that is ASCII text.  When the token-authority command prints an
    address followed by four further characters, with only white space
    before and after, the address is recovered exactly; when it prints at
    most four characters besides surrounding white space, the address is
    the empty string. *)
Theorem authority_address_recovered :
  (forall address suffix lead trail,
      is_ascii (address ++ suffix) = true ->
      String.length suffix = 4 ->
      all_space lead = true ->
      all_space trail = true ->
      starts_visibly (address ++ suffix) ->
      ends_visibly (address ++ suffix) ->
      slice_0_minus 4 (trim (lead ++ (address ++ suffix) ++ trail)) = address)
  /\ (forall out,
        is_ascii out = true ->
        String.length (trim out) <= 4 -> slice_0_minus 4 (trim out) = "").
Proof.
  split.
  - intros address suffix lead trail _ L Hl Ht Sx Ex.
    rewrite (trim_padded lead (address ++ suffix) trail Hl Ht Sx Ex).
    rewrite <- L. apply slice_0_minus_app.
  - intros out _ L. unfold slice_0_minus.
    replace (String.length (trim out) - 4) with 0 by lia.
    apply substring_0_0.
Qed.

Lemma authority_address_recovered_witness :
  slice_0_minus 4 (trim ("" ++ ("Authority" ++ " (1)") ++ nl)) = "Authority"
  /\ slice_0_minus 4 (trim (" ok " ++ nl)) = "".
Proof.
  destruct authority_address_recovered as [A B]. split.
  - apply (A "Authority" " (1)" "" nl); try reflexivity.
    + exists "A"%char. eexists. split; reflexivity.
    + exists "Authority (1", ")"%char. split; reflexivity.
  - apply (B (" ok " ++ nl)); [reflexivity|]. vm_compute. lia.
Defined.

(** X17.  What the locator's filter keeps among ASCII names that fit on
    one line of the listing, exactly: the names made of three characters
    that are [ntt] up to case, then any characters, then any one
    character, then four characters that are [json] up to case.  In
    particular it keeps every such name that, up to case, starts with
    [ntt] and ends with [.json]. *)
Theorem locator_filter_shape name :
  is_ascii name = true ->
  no_newline name = true ->
  (locator_accepts name = true
   <-> exists p mid c s,
         name = p ++ mid ++ String c s
         /\ toLowerCase p = "ntt" /\ toLowerCase s = "json")
  /\ (claimed_shape name = true -> locator_accepts name = true).
Proof.
  intros _ _.
  split; [apply locator_accepts_iff | apply claimed_shape_accepted].
Qed.

Lemma locator_filter_shape_witness :
  locator_accepts "NttProgram.Json" = true.
Proof.
  destruct (locator_filter_shape "NttProgram.Json" eq_refl eq_refl) as [_ C].
  apply C. reflexivity.
Defined.

(* ------------------------------------------------------------------ *)
(** ** Dash-casing *)

Lemma toLowerCase_char_not_upper c : is_upper (toLowerCase_char c) = false.
Proof. destruct c as [[] [] [] [] [] [] [] []]; reflexivity. Qed.

(** X18.  Dash-casing, as used to name a parameter's flag in the
    missing-parameter report: the result has no upper-case letter, is one
    character longer for each upper-case letter of the name, and a name
    without upper-case letters is returned unchanged. *)
Theorem dash_case_is_lower param :
  has_upper (dash_case param) = false
  /\ String.length (dash_case param) = String.length param + count_upper param
  /\ (has_upper param = false -> dash_case param = param).
Proof.
  induction param as [|c s (U & L & I)]; [repeat split|].
  cbn [dash_case has_upper count_upper String.length].
  destruct (is_upper c) eqn:C; cbn [has_upper String.length orb].
  - rewrite toLowerCase_char_not_upper, U, L.
    repeat split; [lia | discriminate].
  - rewrite C, U, L. repeat split.
    intros H. rewrite (I H). reflexivity.
Qed.

Lemma dash_case_is_lower_witness : dash_case "mode" = "mode".
Proof.
  destruct (dash_case_is_lower "mode") as (_ & _ & I). apply I. reflexivity.
Defined.
